(** * Secular and diffusion timescales of a test particle

    A shallow embedding of [getSecularAndDiffusionTimes.py] and the
    properties of its four functions and of the script body.

    The functions are embedded twice, line for line the same, over two
    models of the numbers.

    Exact arithmetic (top level).  A finite Python float is a real
    number and [+], [*], [/], [abs], [min] and [**] are the exact real
    operations.  What is kept from Python is what changes control flow
    at ordinary magnitudes: float division by zero raises
    [ZeroDivisionError], [0.0 ** y] with [y < 0] raises it too, and the
    numpy scalars inside the quadrature integrand produce [inf] and
    [nan] where the plain floats would raise.  This model carries the
    statements that concern no extreme magnitude: the zero-mass guard,
    the error behaviour of the axis ratio, and the script at its shipped
    inputs.

    The range of binary64 (module [B64]).  Every result is checked
    against the overflow and underflow thresholds of binary64, [**]
    raises [OverflowError] as CPython does, and infinities and nans are
    carried through.  This model carries every statement that
    quantifies over the four inputs, with the range it needs as a
    hypothesis, and the inputs at which the unrestricted statements
    fail.

    Rounding inside the range is left out of both.  The literals
    [9.55e-4], [0.01], [5.2], [0.5], [2.5] are the decimal fractions
    they denote. *)

From Stdlib Require Import Reals Lra Lia ZArith List String Ascii Bool.
Import ListNotations.

Open Scope R_scope.

(** ** Floating-point values and the effects of a run *)

(** A float as the interpreter holds it: a finite value, one of the two
    infinities, or a nan. *)
Inductive xfloat : Type :=
| Finite (r : R)
| PInf
| NInf
| NaN.

(** [np.inf]. *)
Definition np_inf : xfloat := PInf.

(** [np.pi]. *)
Definition np_pi : R := PI.

(** The ways a run leaves the straight path.  [ComplexResult] stands for a
    negative float raised to a fractional power: CPython 3 answers with a
    complex number there (CPython 2 raises [ValueError]); either way the
    value is no longer a float, and the model stops. [FormatError] is a
    template the [%] operator rejects. *)
Inductive exn : Type :=
| ZeroDivisionError
| ComplexResult
| FormatError.

(** What a run leaves behind: the calls it enters, with their arguments,
    and the lines it prints. *)
Inductive event : Type :=
| CallOrbitalPeriod (a_au mStar_mSun : R)
| CallLaplaceCoefficient (j s alpha : R)
| CallQuad (lo hi : R)
| PrintLine (line : string).

(** A computation: the events so far, and an exception or a value. *)
Definition M (A : Type) : Type := (list event * (exn + A))%type.

Definition ret {A : Type} (a : A) : M A := ([], inr a).

Definition raise {A : Type} (e : exn) : M A := ([], inl e).

Definition emit (ev : event) : M unit := ([ev], inr tt).

Definition bind {A B : Type} (c : M A) (k : A -> M B) : M B :=
  match c with
  | (tr, inl e) => (tr, inl e)
  | (tr, inr a) => let (tr', r) := k a in (tr ++ tr', r)
  end.

Notation "x <- c ;; k" := (bind c (fun x => k))
  (at level 61, c at next level, right associativity).
Notation "c ;;; k" := (bind c (fun _ => k))
  (at level 61, right associativity).

Definition trace {A : Type} (c : M A) : list event := fst c.

Definition returns {A : Type} (c : M A) (a : A) : Prop := snd c = inr a.

Definition raises {A : Type} (c : M A) (e : exn) : Prop := snd c = inl e.

Fixpoint printed (tr : list event) : list string :=
  match tr with
  | [] => []
  | PrintLine l :: tr' => l :: printed tr'
  | _ :: tr' => printed tr'
  end.

Definition stdout {A : Type} (c : M A) : list string := printed (trace c).

(** ** Arithmetic of Python floats *)

(** [x / y] on finite Python floats. *)
Definition pydiv (x y : R) : M R :=
  if Req_dec_T y 0 then raise ZeroDivisionError else ret (x / y).

(** The built-in [min(x, y)]: the first argument unless the second is
    strictly smaller. *)
Definition pymin (x y : R) : R :=
  if Rlt_dec y x then y else x.

(** The three outcomes of [x ** y] on finite floats, before the caller's
    error convention is applied. *)
Inductive pow_outcome : Type :=
| PowValue (r : R)
| PowZeroToNegative
| PowNegativeToFraction.

(** [x ** y] for finite floats, as C's [pow] classifies it: anything to
    the power zero is one; a positive base is [exp (y * ln x)]; zero to a
    positive power is zero and to a negative power is a pole; a negative
    base has a real power only for an integral exponent. *)
Definition float_pow (x y : R) : pow_outcome :=
  if Req_dec_T y 0 then PowValue 1
  else if Rlt_dec 0 x then PowValue (Rpower x y)
  else if Req_dec_T x 0 then
    (if Rlt_dec 0 y then PowValue 0 else PowZeroToNegative)
  else if Req_dec_T (IZR (Int_part y)) y then PowValue (powerRZ x (Int_part y))
  else PowNegativeToFraction.

(** [x ** y] on Python floats. *)
Definition pypow (x y : R) : M R :=
  match float_pow x y with
  | PowValue r => ret r
  | PowZeroToNegative => raise ZeroDivisionError
  | PowNegativeToFraction => raise ComplexResult
  end.

(** [x ** y] where [x] is a numpy scalar: a pole is [inf] and a fractional
    power of a negative base is [nan], each with a warning only. *)
Definition np_pow (x y : R) : xfloat :=
  match float_pow x y with
  | PowValue r => Finite r
  | PowZeroToNegative => PInf
  | PowNegativeToFraction => NaN
  end.

(** [c / d] where [c] is a finite numpy scalar: dividing by zero gives a
    signed infinity, or [nan] for [0 / 0]; dividing by an infinity gives
    zero. *)
Definition np_div (c : R) (d : xfloat) : xfloat :=
  match d with
  | Finite r =>
      if Req_dec_T r 0 then
        (if Req_dec_T c 0 then NaN else if Rlt_dec 0 c then PInf else NInf)
      else Finite (c / r)
  | PInf | NInf => Finite 0
  | NaN => NaN
  end.

(** [k * x] for a finite Python float [k] and any float [x]. *)
Definition xscale (k : R) (x : xfloat) : xfloat :=
  match x with
  | Finite r => Finite (k * r)
  | PInf => if Req_dec_T k 0 then NaN else if Rlt_dec 0 k then PInf else NInf
  | NInf => if Req_dec_T k 0 then NaN else if Rlt_dec 0 k then NInf else PInf
  | NaN => NaN
  end.

(** [x / b] for a finite Python float [x] and any Python float [b]: only
    a zero divisor raises. *)
Definition pydiv_x (x : R) (b : xfloat) : M xfloat :=
  match b with
  | Finite r => q <- pydiv x r ;; ret (Finite q)
  | PInf | NInf => ret (Finite 0)
  | NaN => ret NaN
  end.

(** ** Constants *)

(** Jupiter mass in Solar masses, [9.55e-4]. *)
Definition mJup_mSun : R := 9.55e-4.

(** ** Functions *)

(** [min(aPlt_au/aTest_au, aTest_au/aPlt_au)], the expression both
    timescale functions assign to [alpha] (lines 62 and 93; the [float()]
    calls of line 93 do nothing to a float). *)
Definition alpha_of (aPlt_au aTest_au : R) : M R :=
  r1 <- pydiv aPlt_au aTest_au ;;
  r2 <- pydiv aTest_au aPlt_au ;;
  ret (pymin r1 r2).

(** [GetOrbitalPeriod_yr(a_au, mStar_mSun)]. *)
Definition GetOrbitalPeriod_yr (a_au mStar_mSun : R) : M R :=
  emit (CallOrbitalPeriod a_au mStar_mSun) ;;;
  pi2 <- pypow np_pi 2 ;;
  a3 <- pypow a_au 3 ;;
  q <- pydiv (4 * pi2 * mStar_mSun) a3 ;;
  n_radPerYr <- pypow (Rabs q) 0.5 ;;
  period_yr <- pydiv (2 * np_pi) n_radPerYr ;;
  ret period_yr.

Section Timescales.

(** [scipy.integrate.quad(f, lo, hi)[0]]: the library's adaptive
    quadrature, taken as it comes.  It receives the integrand as a
    function and hands back one float. *)
Variable quad : (R -> xfloat) -> R -> R -> xfloat.

(** The integrand of the Laplace coefficient, a numpy scalar.  The
    square [alpha**2] is a power of the plain float [alpha]; its
    exponent is a positive integer, so it always has a value. *)
Definition laplaceCoefficientIntegrand (j s alpha psi : R) : xfloat :=
  match float_pow alpha 2 with
  | PowValue alpha2 =>
      np_div (cos (j * psi)) (np_pow (1 - 2 * alpha * cos psi + alpha2) s)
  | _ => NaN
  end.

(** [GetLaplaceCoefficient(j, s, alpha)]. *)
Definition GetLaplaceCoefficient (j s alpha : R) : M xfloat :=
  emit (CallLaplaceCoefficient j s alpha) ;;;
  k <- pydiv 1 np_pi ;;
  emit (CallQuad 0 (2 * np_pi)) ;;;
  ret (xscale k (quad (laplaceCoefficientIntegrand j s alpha) 0 (2 * np_pi))).

(** [GetSecularTimescale_yr(mStar_mSun, mPlt_mJup, aPlt_au, aTest_au)]. *)
Definition GetSecularTimescale_yr
    (mStar_mSun mPlt_mJup aPlt_au aTest_au : R) : M xfloat :=
  if Req_dec_T mPlt_mJup 0 then ret np_inf
  else
    let mPlt_mSun := mPlt_mJup * mJup_mSun in
    mPlt_mStar <- pydiv mPlt_mSun mStar_mSun ;;
    alpha <- alpha_of aPlt_au aTest_au ;;
    tPlt_yr <- GetOrbitalPeriod_yr aPlt_au mStar_mSun ;;
    b1_32 <- GetLaplaceCoefficient 1 1.5 alpha ;;
    if Rle_dec aPlt_au aTest_au then
      t <- pydiv (4 * tPlt_yr) mPlt_mStar ;;
      p <- pypow alpha (-2.5) ;;
      pydiv_x (t * p) b1_32
    else
      t <- pydiv (4 * tPlt_yr) mPlt_mStar ;;
      p <- pypow alpha (-0.5) ;;
      pydiv_x (t * p) b1_32.

(** [GetDiffusionTimescale_yr(mStar_mSun, mPlt_mJup, aPlt_au, aTest_au)]. *)
Definition GetDiffusionTimescale_yr
    (mStar_mSun mPlt_mJup aPlt_au aTest_au : R) : M xfloat :=
  if Req_dec_T mPlt_mJup 0 then ret np_inf
  else
    let mPlt_mSun := mPlt_mJup * mJup_mSun in
    alpha <- alpha_of aPlt_au aTest_au ;;
    tPlt_yr <- GetOrbitalPeriod_yr aPlt_au mStar_mSun ;;
    p <- pypow alpha 0.5 ;;
    mu <- pydiv mPlt_mSun mStar_mSun ;;
    w <- pypow mu (-2) ;;
    ret (Finite (0.01 * tPlt_yr * p * w)).

End Timescales.

(** ** The script body *)

(** The values of the 'User Inputs' block. *)
Module UserInputs.
Definition mStar_mSun : R := 1.
Definition mPlt_mJup : R := 1.
Definition aPlt_au : R := 5.2.
Definition aTest_au : R := 6.
End UserInputs.

Definition is_digit (c : ascii) : bool :=
  let n := nat_of_ascii c in (48 <=? n)%nat && (n <=? 57)%nat.

Definition digit_value (c : ascii) : nat := (nat_of_ascii c - 48)%nat.

(** Where the scan of a template stands: in literal text, just after a
    [%], or inside the digits of a precision. *)
Inductive scan_state : Type :=
| Literal
| AfterPercent
| InPrecision (p : nat).

Section Script.

Variable quad : (R -> xfloat) -> R -> R -> xfloat.

(** The interpreter's conversion of a float under [%.<p>e]: scientific
    notation with [p] digits after the decimal point of the mantissa. *)
Variable format_e : nat -> xfloat -> string.

(** [template % x] for a float [x], for the templates of this script:
    literal text around conversions of the form [%.<digits>e].  Any
    other conversion is refused. *)
Fixpoint pyformat_from (st : scan_state) (template : string) (x : xfloat)
    : option string :=
  match template with
  | EmptyString =>
      match st with
      | Literal => Some EmptyString
      | _ => None
      end
  | String c rest =>
      match st with
      | Literal =>
          if Ascii.eqb c "%" then pyformat_from AfterPercent rest x
          else option_map (String c) (pyformat_from Literal rest x)
      | AfterPercent =>
          if Ascii.eqb c "." then pyformat_from (InPrecision 0) rest x
          else None
      | InPrecision p =>
          if is_digit c then
            pyformat_from (InPrecision (10 * p + digit_value c)) rest x
          else if Ascii.eqb c "e" then
            option_map (append (format_e p x)) (pyformat_from Literal rest x)
          else None
      end
  end.

Definition pyformat (template : string) (x : xfloat) : M string :=
  match pyformat_from Literal template x with
  | Some line => ret line
  | None => raise FormatError
  end.

(** The 'Program' block, as a function of the four user inputs. *)
Definition Program (mStar_mSun mPlt_mJup aPlt_au aTest_au : R) : M unit :=
  secularTime_yr <-
    GetSecularTimescale_yr quad mStar_mSun mPlt_mJup aPlt_au aTest_au ;;
  line1 <- pyformat "Secular time: %.2e yr" secularTime_yr ;;
  emit (PrintLine line1) ;;;
  diffusionTime_yr <-
    GetDiffusionTimescale_yr mStar_mSun mPlt_mJup aPlt_au aTest_au ;;
  line2 <- pyformat "Diffusion time: %.2e yr" diffusionTime_yr ;;
  emit (PrintLine line2).

(** The script as shipped. *)
Definition main : M unit :=
  Program UserInputs.mStar_mSun UserInputs.mPlt_mJup
          UserInputs.aPlt_au UserInputs.aTest_au.

End Script.

(** ** Closed forms used in the statements *)

(** The mean motion [n_radPerYr] as a real expression: the square root of
    [|4 pi^2 mStar / a^3|]. *)
Definition mean_motion (a_au mStar_mSun : R) : R :=
  sqrt (Rabs (4 * PI ^ 2 * mStar_mSun / a_au ^ 3)).

(** ** Instances to run the model on *)

(** A one-panel rectangle rule, the simplest routine of the shape of
    [quad]; it serves to run the functions on concrete inputs. *)
Definition rectangle_rule (f : R -> xfloat) (lo hi : R) : xfloat :=
  xscale (hi - lo) (f lo).

(** The Laplace coefficient the rectangle rule leads to. *)
Definition rectangle_b1_32 (alpha : R) : R :=
  1 / PI * ((2 * PI - 0)
            * (cos (1 * 0) / Rpower (1 - 2 * alpha * cos 0 + alpha ^ 2) 1.5)).

(** A formatter that ignores its argument, to run the script on. *)
Definition fixed_format (p : nat) (x : xfloat) : string := "#"%string.

(** * The same functions within the range of binary64

    The definitions above compute with exact reals.  The module below
    keeps the exact value of every result that binary64 can hold and adds
    what happens when it cannot: a product, quotient or sum whose
    magnitude reaches the overflow threshold becomes an infinity, one
    that falls to the underflow threshold or below becomes zero, and
    Python's [**] raises [OverflowError] where the C library reports a
    range error.  Infinities and nans then follow the IEEE rules through
    the rest of the expression.  Rounding inside the range is still left
    out, and so is the sign of a zero.  A negative float raised to a
    fractional power makes CPython 3 go on in complex arithmetic; the
    module does not follow it there and ends the run with
    [EntersComplex]. *)

Module B64.

(** The exceptions of the arithmetic. *)
Inductive pyexn : Type :=
| ZeroDivisionError
| OverflowError.

(** How a run ends early: an exception, or the step into complex
    numbers. *)
Inductive stop : Type :=
| Raised (e : pyexn)
| EntersComplex.

Definition E (A : Type) : Type := (stop + A)%type.

Definition ret {A : Type} (a : A) : E A := inr a.

Definition raise {A : Type} (e : pyexn) : E A := inl (Raised e).

Definition bind {A B : Type} (c : E A) (k : A -> E B) : E B :=
  match c with
  | inl s => inl s
  | inr a => k a
  end.

Notation "x <~ c ;; k" := (bind c (fun x => k))
  (at level 61, c at next level, right associativity).

Definition returns {A : Type} (c : E A) (a : A) : Prop := c = inr a.

Definition raises {A : Type} (c : E A) (e : pyexn) : Prop := c = inl (Raised e).

(** Half an ulp above the largest finite double, [2^1024 - 2^970]: an
    exact result of this magnitude or more rounds to an infinity. *)
Definition overflow_threshold : R := IZR (2 ^ 1024 - 2 ^ 970).

(** Half the smallest subnormal, [2^-1075]: an exact result of this
    magnitude or less rounds to zero. *)
Definition underflow_threshold : R := / IZR (2 ^ 1075).

Definition positive (r : R) : bool := if Rlt_dec 0 r then true else false.

Definition signed_inf (pos : bool) : xfloat := if pos then PInf else NInf.

(** The exact result [r] of an operation on finite operands, as the
    hardware delivers it. *)
Definition deliver (r : R) : xfloat :=
  if Rle_dec overflow_threshold (Rabs r) then signed_inf (positive r)
  else if Rle_dec (Rabs r) underflow_threshold then Finite 0
  else Finite r.

Definition is_zero (x : xfloat) : bool :=
  match x with
  | Finite r => if Req_dec_T r 0 then true else false
  | _ => false
  end.

(** [abs(x)]. *)
Definition xabs (x : xfloat) : xfloat :=
  match x with
  | Finite r => Finite (Rabs r)
  | PInf | NInf => PInf
  | NaN => NaN
  end.

(** [-x]. *)
Definition xneg (x : xfloat) : xfloat :=
  match x with
  | Finite r => Finite (- r)
  | PInf => NInf
  | NInf => PInf
  | NaN => NaN
  end.

(** [x * y], for Python floats and numpy scalars alike. *)
Definition xmul (x y : xfloat) : xfloat :=
  match x, y with
  | NaN, _ | _, NaN => NaN
  | Finite a, Finite b => deliver (a * b)
  | Finite a, PInf | PInf, Finite a =>
      if Req_dec_T a 0 then NaN else signed_inf (positive a)
  | Finite a, NInf | NInf, Finite a =>
      if Req_dec_T a 0 then NaN else signed_inf (negb (positive a))
  | PInf, PInf | NInf, NInf => PInf
  | PInf, NInf | NInf, PInf => NInf
  end.

(** [x + y]. *)
Definition xadd (x y : xfloat) : xfloat :=
  match x, y with
  | NaN, _ | _, NaN => NaN
  | Finite a, Finite b => deliver (a + b)
  | PInf, NInf | NInf, PInf => NaN
  | PInf, _ | _, PInf => PInf
  | NInf, _ | _, NInf => NInf
  end.

(** [x - y]. *)
Definition xsub (x y : xfloat) : xfloat := xadd x (xneg y).

(** [x / y] for a divisor that is not zero. *)
Definition xquot (x y : xfloat) : xfloat :=
  match x, y with
  | NaN, _ | _, NaN => NaN
  | Finite a, Finite b => deliver (a / b)
  | Finite _, (PInf | NInf) => Finite 0
  | PInf, Finite b => signed_inf (positive b)
  | NInf, Finite b => signed_inf (negb (positive b))
  | (PInf | NInf), (PInf | NInf) => NaN
  end.

(** [x / y] on Python floats: a zero divisor raises, nothing else
    does. *)
Definition pydiv (x y : xfloat) : E xfloat :=
  if is_zero y then raise ZeroDivisionError else ret (xquot x y).

(** [x / y] on numpy scalars: a zero divisor gives an infinity of the
    sign of [x], or nan for [0 / 0] and [nan / 0]. *)
Definition npdiv (x y : xfloat) : xfloat :=
  if is_zero y then
    match x with
    | Finite a => if Req_dec_T a 0 then NaN else signed_inf (positive a)
    | other => other
    end
  else xquot x y.

(** [x < y]; every comparison with a nan is false. *)
Definition xlt (x y : xfloat) : bool :=
  match x, y with
  | Finite a, Finite b => if Rlt_dec a b then true else false
  | NInf, (Finite _ | PInf) => true
  | Finite _, PInf => true
  | _, _ => false
  end.

(** The built-in [min(x, y)]. *)
Definition pymin (x y : xfloat) : xfloat := if xlt y x then y else x.

Definition is_integer (y : R) : bool :=
  if Req_dec_T (IZR (Int_part y)) y then true else false.

Definition is_odd_integer (y : R) : bool :=
  is_integer y && Z.odd (Int_part y).

(** The last step of CPython's [float_pow]: the C library's [pow] on a
    positive base gave the magnitude [v]; an overflow is reported as
    [OverflowError], an underflow passes as zero. *)
Definition pow_finish (negate : bool) (v : R) : E xfloat :=
  if Rle_dec overflow_threshold v then raise OverflowError
  else if Rle_dec v underflow_threshold then ret (Finite 0)
  else ret (Finite (if negate then - v else v)).

(** [x ** y] on a Python float [x] with a finite exponent [y], case by
    case as CPython's [float_pow] has it. *)
Definition pypow (x : xfloat) (y : R) : E xfloat :=
  if Req_dec_T y 0 then ret (Finite 1)
  else
    match x with
    | NaN => ret NaN
    | PInf => ret (if Rlt_dec 0 y then PInf else Finite 0)
    | NInf =>
        ret (if Rlt_dec 0 y
             then (if is_odd_integer y then NInf else PInf)
             else Finite 0)
    | Finite r =>
        if Req_dec_T r 0 then
          (if Rlt_dec y 0 then raise ZeroDivisionError else ret (Finite 0))
        else if Rlt_dec r 0 then
          (if is_integer y
           then pow_finish (is_odd_integer y) (Rpower (- r) y)
           else inl EntersComplex)
        else pow_finish false (Rpower r y)
    end.

(** [x ** y] on a numpy scalar [x]: the IEEE [pow], which never raises. *)
Definition np_pow (x : xfloat) (y : R) : xfloat :=
  if Req_dec_T y 0 then Finite 1
  else
    match x with
    | NaN => NaN
    | PInf => if Rlt_dec 0 y then PInf else Finite 0
    | NInf =>
        if Rlt_dec 0 y
        then (if is_odd_integer y then NInf else PInf)
        else Finite 0
    | Finite r =>
        if Req_dec_T r 0 then (if Rlt_dec 0 y then Finite 0 else PInf)
        else if Rlt_dec r 0 then
          (if is_integer y
           then deliver (if is_odd_integer y
                         then - Rpower (- r) y else Rpower (- r) y)
           else NaN)
        else deliver (Rpower r y)
    end.

(** [np.cos(x)]. *)
Definition npcos (x : xfloat) : xfloat :=
  match x with
  | Finite r => Finite (cos r)
  | _ => NaN
  end.

(** [min(aPlt_au/aTest_au, aTest_au/aPlt_au)] (lines 62 and 93). *)
Definition alpha_of (aPlt_au aTest_au : R) : E xfloat :=
  r1 <~ pydiv (Finite aPlt_au) (Finite aTest_au) ;;
  r2 <~ pydiv (Finite aTest_au) (Finite aPlt_au) ;;
  ret (pymin r1 r2).

(** [GetOrbitalPeriod_yr(a_au, mStar_mSun)]. *)
Definition GetOrbitalPeriod_yr (a_au mStar_mSun : R) : E xfloat :=
  pi2 <~ pypow (Finite np_pi) 2 ;;
  a3 <~ pypow (Finite a_au) 3 ;;
  q <~ pydiv (xmul (xmul (Finite 4) pi2) (Finite mStar_mSun)) a3 ;;
  n_radPerYr <~ pypow (xabs q) 0.5 ;;
  pydiv (xmul (Finite 2) (Finite np_pi)) n_radPerYr.

Section Timescales.

(** [scipy.integrate.quad(f, lo, hi)[0]]: it hands back a float, or lets
    an exception of the integrand through. *)
Variable quad : (R -> E xfloat) -> R -> R -> E xfloat.

(** The integrand: numpy arithmetic around the plain power
    [alpha**2], which is the one step that can raise. *)
Definition laplaceCoefficientIntegrand
    (j s : R) (alpha : xfloat) (psi : R) : E xfloat :=
  alpha2 <~ pypow alpha 2 ;;
  ret (npdiv (npcos (xmul (Finite j) (Finite psi)))
             (np_pow (xadd (xsub (Finite 1)
                                 (xmul (xmul (Finite 2) alpha)
                                       (npcos (Finite psi))))
                           alpha2)
                     s)).

(** [GetLaplaceCoefficient(j, s, alpha)]. *)
Definition GetLaplaceCoefficient (j s : R) (alpha : xfloat) : E xfloat :=
  k <~ pydiv (Finite 1) (Finite np_pi) ;;
  integral <~ quad (laplaceCoefficientIntegrand j s alpha) 0 (2 * np_pi) ;;
  ret (xmul k integral).

(** [GetSecularTimescale_yr(mStar_mSun, mPlt_mJup, aPlt_au, aTest_au)]. *)
Definition GetSecularTimescale_yr
    (mStar_mSun mPlt_mJup aPlt_au aTest_au : R) : E xfloat :=
  if Req_dec_T mPlt_mJup 0 then ret np_inf
  else
    let mPlt_mSun := xmul (Finite mPlt_mJup) (Finite mJup_mSun) in
    mPlt_mStar <~ pydiv mPlt_mSun (Finite mStar_mSun) ;;
    alpha <~ alpha_of aPlt_au aTest_au ;;
    tPlt_yr <~ GetOrbitalPeriod_yr aPlt_au mStar_mSun ;;
    b1_32 <~ GetLaplaceCoefficient 1 1.5 alpha ;;
    if Rle_dec aPlt_au aTest_au then
      t <~ pydiv (xmul (Finite 4) tPlt_yr) mPlt_mStar ;;
      p <~ pypow alpha (-2.5) ;;
      pydiv (xmul t p) b1_32
    else
      t <~ pydiv (xmul (Finite 4) tPlt_yr) mPlt_mStar ;;
      p <~ pypow alpha (-0.5) ;;
      pydiv (xmul t p) b1_32.

(** [GetDiffusionTimescale_yr(mStar_mSun, mPlt_mJup, aPlt_au, aTest_au)]. *)
Definition GetDiffusionTimescale_yr
    (mStar_mSun mPlt_mJup aPlt_au aTest_au : R) : E xfloat :=
  if Req_dec_T mPlt_mJup 0 then ret np_inf
  else
    let mPlt_mSun := xmul (Finite mPlt_mJup) (Finite mJup_mSun) in
    alpha <~ alpha_of aPlt_au aTest_au ;;
    tPlt_yr <~ GetOrbitalPeriod_yr aPlt_au mStar_mSun ;;
    p <~ pypow alpha 0.5 ;;
    mu <~ pydiv mPlt_mSun (Finite mStar_mSun) ;;
    w <~ pypow mu (-2) ;;
    ret (xmul (xmul (xmul (Finite 0.01) tPlt_yr) p) w).

End Timescales.

(** A routine of the shape of [quad] that answers [v] whatever it is
    given. *)
Definition constant_rule (v : xfloat)
    (f : R -> E xfloat) (lo hi : R) : E xfloat :=
  ret v.

End B64.

(** A magnitude well inside the range of binary64, where no result
    overflows, underflows or is subnormal. *)
Definition normal (r : R) : Prop := 1e-300 <= Rabs r <= 1e300.

(** The three intermediate results of [GetOrbitalPeriod_yr], all inside
    the range: the cube [a**3], the product [4*pi**2*mStar] and their
    quotient. *)
Definition orbital_in_range (a_au mStar_mSun : R) : Prop :=
  normal (a_au ^ 3)
  /\ normal (4 * PI ^ 2 * mStar_mSun)
  /\ normal (4 * PI ^ 2 * mStar_mSun / a_au ^ 3).

(** The planet mass in Solar masses and its ratio to the stellar mass,
    both inside the range. *)
Definition mass_ratio_in_range (mStar_mSun mPlt_mJup : R) : Prop :=
  normal (mPlt_mJup * 9.55e-4)
  /\ normal (mPlt_mJup * 9.55e-4 / mStar_mSun).

(** Every intermediate result of [GetDiffusionTimescale_yr] inside the
    range: those of the orbital period, the axis ratio, the two mass
    products, the power of the mass ratio and the two last products. *)
Definition diffusion_in_range (mStar_mSun mPlt_mJup aPlt_au aTest_au : R)
    : Prop :=
  let T := 2 * PI / mean_motion aPlt_au mStar_mSun in
  let alpha := Rmin (aPlt_au / aTest_au) (aTest_au / aPlt_au) in
  let mu := mPlt_mJup * 9.55e-4 / mStar_mSun in
  orbital_in_range aPlt_au mStar_mSun
  /\ normal (aPlt_au / aTest_au)
  /\ mass_ratio_in_range mStar_mSun mPlt_mJup
  /\ normal (Rpower mu (-2))
  /\ normal (0.01 * T * Rpower alpha 0.5)
  /\ normal (0.01 * T * Rpower alpha 0.5 * Rpower mu (-2)).

(** Every intermediate result of [GetSecularTimescale_yr] inside the
    range, for a Laplace coefficient [b]: those of the orbital period,
    the axis ratio, the two mass products, the quotient by the mass
    ratio, the power of [alpha], their product and the last quotient. *)
Definition secular_in_range (mStar_mSun mPlt_mJup aPlt_au aTest_au b : R)
    : Prop :=
  let T := 2 * PI / mean_motion aPlt_au mStar_mSun in
  let alpha := Rmin (aPlt_au / aTest_au) (aTest_au / aPlt_au) in
  let mu := mPlt_mJup * 9.55e-4 / mStar_mSun in
  let e := if Rle_dec aPlt_au aTest_au then -2.5 else -0.5 in
  orbital_in_range aPlt_au mStar_mSun
  /\ normal (aPlt_au / aTest_au)
  /\ mass_ratio_in_range mStar_mSun mPlt_mJup
  /\ normal (4 * T / mu)
  /\ normal (Rpower alpha e)
  /\ normal (4 * T / mu * Rpower alpha e)
  /\ normal (4 * T / mu * Rpower alpha e / b).

(** * Properties *)

(** ** Running the monad *)

Lemma bind_ret {A B : Type} (a : A) (k : A -> M B) :
  bind (ret a) k = k a.
Proof. unfold bind, ret. destruct (k a); reflexivity. Qed.

Lemma bind_raise {A B : Type} (e : exn) (k : A -> M B) :
  bind (raise e) k = raise e.
Proof. reflexivity. Qed.

Lemma bind_emit {B : Type} (ev : event) (k : unit -> M B) :
  bind (emit ev) k = (ev :: fst (k tt), snd (k tt)).
Proof. unfold bind, emit. destruct (k tt); reflexivity. Qed.

Lemma bind_run {A B : Type} (c : M A) (k : A -> M B) tr a :
  c = (tr, inr a) -> bind c k = (tr ++ fst (k a), snd (k a)).
Proof. intros ->. unfold bind. destruct (k a); reflexivity. Qed.

Lemma bind_fail {A B : Type} (c : M A) (k : A -> M B) tr e :
  c = (tr, inl e) -> bind c k = (tr, inl e).
Proof. intros ->. reflexivity. Qed.

(** ** Float arithmetic *)

Lemma pydiv_ok (x y : R) : y <> 0 -> pydiv x y = ret (x / y).
Proof. intros H. unfold pydiv. destruct (Req_dec_T y 0); [contradiction | reflexivity]. Qed.

Lemma pydiv_zero (x : R) : pydiv x 0 = raise ZeroDivisionError.
Proof. unfold pydiv. destruct (Req_dec_T 0 0); [reflexivity | contradiction]. Qed.

Lemma float_pow_pos (x y : R) : 0 < x -> float_pow x y = PowValue (Rpower x y).
Proof.
  intros Hx. unfold float_pow.
  destruct (Req_dec_T y 0) as [-> | Hy].
  - now rewrite Rpower_O.
  - destruct (Rlt_dec 0 x); [reflexivity | contradiction].
Qed.

Lemma Int_part_IZR (z : Z) : Int_part (IZR z) = z.
Proof. symmetry. apply Int_part_spec. lra. Qed.

Lemma float_pow_nat (x : R) (n : nat) :
  (0 < n)%nat -> float_pow x (INR n) = PowValue (x ^ n).
Proof.
  intros Hn. unfold float_pow.
  assert (Hn0 : INR n <> 0) by (apply not_0_INR; lia).
  destruct (Req_dec_T (INR n) 0); [contradiction |].
  destruct (Rlt_dec 0 x) as [Hx | Hx].
  - now rewrite Rpower_pow.
  - destruct (Req_dec_T x 0) as [-> | Hx0].
    + destruct (Rlt_dec 0 (INR n)) as [_ | Hc].
      * now rewrite pow_i.
      * exfalso. apply Hc. apply lt_0_INR. exact Hn.
    + rewrite INR_IZR_INZ, Int_part_IZR.
      destruct (Req_dec_T (IZR (Z.of_nat n)) (IZR (Z.of_nat n))); [| contradiction].
      now rewrite <- pow_powerRZ.
Qed.

Lemma float_pow_2 (x : R) : float_pow x 2 = PowValue (x ^ 2).
Proof. change 2 with (INR 2) at 1. apply float_pow_nat. lia. Qed.

Lemma float_pow_3 (x : R) : float_pow x 3 = PowValue (x ^ 3).
Proof.
  replace 3 with (INR 3) at 1 by (simpl; lra). apply float_pow_nat. lia.
Qed.

Lemma pypow_pos (x y : R) : 0 < x -> pypow x y = ret (Rpower x y).
Proof. intros Hx. unfold pypow. now rewrite float_pow_pos. Qed.

Lemma pypow_2 (x : R) : pypow x 2 = ret (x ^ 2).
Proof. unfold pypow. now rewrite float_pow_2. Qed.

Lemma pypow_3 (x : R) : pypow x 3 = ret (x ^ 3).
Proof. unfold pypow. now rewrite float_pow_3. Qed.

Lemma Rpower_half (x : R) : 0 < x -> Rpower x 0.5 = sqrt x.
Proof. intros Hx. replace 0.5 with (/ 2) by lra. now apply Rpower_sqrt. Qed.

(** The corners of [**], as the interpreter answers them. *)

Lemma Int_part_half : Int_part 0.5 = 0%Z.
Proof. symmetry. apply Int_part_spec. lra. Qed.

Example pow_zero_to_zero : pypow 0 0 = ret 1.
Proof.
  unfold pypow, float_pow. destruct (Req_dec_T 0 0); [reflexivity | lra].
Qed.

Example pow_zero_to_negative : pypow 0 (-2.5) = raise ZeroDivisionError.
Proof.
  unfold pypow, float_pow.
  destruct (Req_dec_T (-2.5) 0); [lra |].
  destruct (Rlt_dec 0 0); [lra |].
  destruct (Req_dec_T 0 0); [| lra].
  destruct (Rlt_dec 0 (-2.5)); [lra | reflexivity].
Qed.

Example pow_negative_to_half : pypow (-2) 0.5 = raise ComplexResult.
Proof.
  unfold pypow, float_pow. rewrite Int_part_half.
  destruct (Req_dec_T 0.5 0); [lra |].
  destruct (Rlt_dec 0 (-2)); [lra |].
  destruct (Req_dec_T (-2) 0); [lra |].
  destruct (Req_dec_T 0 0.5); [lra | reflexivity].
Qed.

Example pow_negative_cubed : pypow (-2) 3 = ret (-8).
Proof. rewrite pypow_3. f_equal. f_equal. lra. Qed.

Example np_pow_pole : np_pow 0 (-1.5) = PInf.
Proof.
  unfold np_pow, float_pow.
  destruct (Req_dec_T (-1.5) 0); [lra |].
  destruct (Rlt_dec 0 0); [lra |].
  destruct (Req_dec_T 0 0); [| lra].
  destruct (Rlt_dec 0 (-1.5)); [lra | reflexivity].
Qed.

(** ** The orbital period *)

Lemma radicand_nonzero (a m : R) :
  a <> 0 -> m <> 0 -> 4 * PI ^ 2 * m / a ^ 3 <> 0.
Proof.
  intros Ha Hm. pose proof PI_RGT_0 as Hpi.
  assert (Ha3 : a ^ 3 <> 0) by (apply pow_nonzero; exact Ha).
  unfold Rdiv. apply Rmult_integral_contrapositive_currified.
  - apply Rmult_integral_contrapositive_currified; [| exact Hm].
    apply Rmult_integral_contrapositive_currified; [lra |].
    apply pow_nonzero. lra.
  - apply Rinv_neq_0_compat. exact Ha3.
Qed.

Lemma mean_motion_pos (a m : R) : a <> 0 -> m <> 0 -> 0 < mean_motion a m.
Proof.
  intros Ha Hm. unfold mean_motion. apply sqrt_lt_R0.
  apply Rabs_pos_lt. now apply radicand_nonzero.
Qed.

(** Every run of [GetOrbitalPeriod_yr] away from the two zeros. *)
Lemma orbital_period_run (a m : R) :
  a <> 0 -> m <> 0 ->
  GetOrbitalPeriod_yr a m
  = ([CallOrbitalPeriod a m], inr (2 * PI / mean_motion a m)).
Proof.
  intros Ha Hm.
  pose proof (radicand_nonzero a m Ha Hm) as Hq.
  pose proof (mean_motion_pos a m Ha Hm) as Hn.
  unfold GetOrbitalPeriod_yr, np_pi.
  rewrite bind_emit, pypow_2, bind_ret, pypow_3, bind_ret.
  rewrite pydiv_ok by (apply pow_nonzero; exact Ha).
  rewrite bind_ret, pypow_pos by (apply Rabs_pos_lt; exact Hq).
  rewrite bind_ret, Rpower_half by (apply Rabs_pos_lt; exact Hq).
  fold (mean_motion a m).
  rewrite pydiv_ok by lra.
  rewrite bind_ret. reflexivity.
Qed.

(** With a zero stellar mass the mean motion is zero and the last
    division raises. *)
Lemma orbital_period_zero_mass (a : R) :
  a <> 0 -> raises (GetOrbitalPeriod_yr a 0) ZeroDivisionError.
Proof.
  intros Ha. unfold raises, GetOrbitalPeriod_yr, np_pi.
  rewrite bind_emit, pypow_2, bind_ret, pypow_3, bind_ret.
  rewrite pydiv_ok by (apply pow_nonzero; exact Ha).
  rewrite bind_ret.
  replace (4 * PI ^ 2 * 0 / a ^ 3) with 0 by (unfold Rdiv; ring).
  rewrite Rabs_R0.
  assert (Hp : pypow 0 0.5 = ret 0).
  { unfold pypow, float_pow.
    destruct (Req_dec_T 0.5 0); [lra |].
    destruct (Rlt_dec 0 0); [lra |].
    destruct (Req_dec_T 0 0); [| contradiction].
    destruct (Rlt_dec 0 0.5); [reflexivity | lra]. }
  rewrite Hp, bind_ret, pydiv_zero. reflexivity.
Qed.

(** With a zero semimajor axis the division by [a_au**3] raises. *)
Lemma orbital_period_zero_axis (m : R) :
  raises (GetOrbitalPeriod_yr 0 m) ZeroDivisionError.
Proof.
  unfold raises, GetOrbitalPeriod_yr, np_pi.
  rewrite bind_emit, pypow_2, bind_ret, pypow_3, bind_ret.
  replace (0 ^ 3) with 0 by ring.
  rewrite pydiv_zero. reflexivity.
Qed.

Lemma mean_motion_positive_args (a m : R) :
  0 < a -> 0 < m -> mean_motion a m = sqrt (4 * PI ^ 2 * m / a ^ 3).
Proof.
  intros Ha Hm. unfold mean_motion. f_equal. apply Rabs_pos_eq.
  pose proof PI_RGT_0 as Hpi.
  apply Rlt_le, Rdiv_lt_0_compat; [| apply pow_lt; exact Ha].
  apply Rmult_lt_0_compat; [| exact Hm].
  apply Rmult_lt_0_compat; [lra | apply pow_lt; exact Hpi].
Qed.

Lemma mean_motion_abs_mass (a m : R) :
  mean_motion a (Rabs m) = mean_motion a m.
Proof.
  unfold mean_motion. f_equal.
  unfold Rdiv. rewrite !Rabs_mult, Rabs_Rabsolu. reflexivity.
Qed.



(** ** The axis ratio *)

Lemma pymin_Rmin (x y : R) : pymin x y = Rmin x y.
Proof.
  unfold pymin, Rmin.
  destruct (Rlt_dec y x), (Rle_dec x y); lra.
Qed.

Lemma alpha_of_run (aPlt aTest : R) :
  aPlt <> 0 -> aTest <> 0 ->
  alpha_of aPlt aTest = ret (Rmin (aPlt / aTest) (aTest / aPlt)).
Proof.
  intros HP HT. unfold alpha_of.
  rewrite pydiv_ok, bind_ret, pydiv_ok, bind_ret by assumption.
  now rewrite pymin_Rmin.
Qed.

Lemma alpha_of_zero_test (aPlt : R) :
  alpha_of aPlt 0 = raise ZeroDivisionError.
Proof. unfold alpha_of. now rewrite pydiv_zero. Qed.

Lemma ratio_lt_1 (x y : R) : 0 < x -> x < y -> 0 < x / y < 1.
Proof.
  intros Hx Hxy. split.
  - apply Rdiv_lt_0_compat; lra.
  - apply Rmult_lt_reg_r with y; [lra |].
    unfold Rdiv. rewrite Rmult_assoc, Rinv_l by lra. lra.
Qed.

Lemma ratio_gt_1 (x y : R) : 0 < x -> x < y -> 1 < y / x.
Proof.
  intros Hx Hxy. apply Rmult_lt_reg_r with x; [lra |].
  unfold Rdiv. rewrite Rmult_assoc, Rinv_l by lra. lra.
Qed.

Lemma Rmin_ratio_below (x y : R) :
  0 < x -> x < y -> Rmin (x / y) (y / x) = x / y.
Proof.
  intros Hx Hxy. apply Rmin_left.
  pose proof (ratio_lt_1 x y Hx Hxy). pose proof (ratio_gt_1 x y Hx Hxy). lra.
Qed.

Lemma Rmin_ratio_above (x y : R) :
  0 < y -> y < x -> Rmin (x / y) (y / x) = y / x.
Proof.
  intros Hy Hyx. rewrite Rmin_comm. now apply Rmin_ratio_below.
Qed.

Lemma Rmin_ratio_pos (x y : R) :
  0 < x -> 0 < y -> 0 < Rmin (x / y) (y / x).
Proof.
  intros Hx Hy. apply Rmin_glb_lt; apply Rdiv_lt_0_compat; assumption.
Qed.

Lemma Rmin_ratio_range (x y : R) :
  0 < x -> 0 < y -> x <> y -> 0 < Rmin (x / y) (y / x) < 1.
Proof.
  intros Hx Hy Hne.
  destruct (Rlt_dec x y) as [Hlt | Hge].
  - rewrite Rmin_ratio_below by assumption. now apply ratio_lt_1.
  - assert (Hgt : y < x) by lra.
    rewrite Rmin_ratio_above by assumption. now apply ratio_lt_1.
Qed.

(** ** The zero-mass guard *)

Section ZeroMass.

Variable quad : (R -> xfloat) -> R -> R -> xfloat.

Lemma secular_zero_mass_run (mStar aPlt aTest : R) :
  GetSecularTimescale_yr quad mStar 0 aPlt aTest = ret np_inf.
Proof.
  unfold GetSecularTimescale_yr.
  destruct (Req_dec_T 0 0); [reflexivity | contradiction].
Qed.

Lemma diffusion_zero_mass_run (mStar aPlt aTest : R) :
  GetDiffusionTimescale_yr mStar 0 aPlt aTest = ret np_inf.
Proof.
  unfold GetDiffusionTimescale_yr.
  destruct (Req_dec_T 0 0); [reflexivity | contradiction].
Qed.

(** C2.  With a planet mass of zero both timescale functions return the
    infinite sentinel [np.inf], a value and not an exception, whatever
    the stellar mass and the two axes are. *)
Theorem zero_mass_returns_inf (mStar aPlt aTest : R) :
  returns (GetSecularTimescale_yr quad mStar 0 aPlt aTest) np_inf
  /\ returns (GetDiffusionTimescale_yr mStar 0 aPlt aTest) np_inf.
Proof.
  unfold returns.
  now rewrite secular_zero_mass_run, diffusion_zero_mass_run.
Qed.

(** C9.  The zero-mass test comes first: with a planet mass of zero both
    functions return [np.inf] having entered no call at all (no orbital
    period, no Laplace coefficient, no quadrature) and raised nothing,
    for every stellar mass and every pair of axes; in particular for
    equal axes, for a zero axis, and for a zero stellar mass. *)
Theorem zero_mass_guard_first (mStar aPlt aTest : R) :
  trace (GetSecularTimescale_yr quad mStar 0 aPlt aTest) = []
  /\ returns (GetSecularTimescale_yr quad mStar 0 aPlt aTest) np_inf
  /\ trace (GetDiffusionTimescale_yr mStar 0 aPlt aTest) = []
  /\ returns (GetDiffusionTimescale_yr mStar 0 aPlt aTest) np_inf
  /\ returns (GetSecularTimescale_yr quad mStar 0 aPlt aPlt) np_inf
  /\ returns (GetDiffusionTimescale_yr mStar 0 aPlt aPlt) np_inf
  /\ returns (GetSecularTimescale_yr quad 0 0 0 0) np_inf
  /\ returns (GetDiffusionTimescale_yr 0 0 0 0) np_inf.
Proof.
  unfold returns, trace.
  rewrite !secular_zero_mass_run, !diffusion_zero_mass_run.
  repeat split.
Qed.

End ZeroMass.

(** ** The timescales for a massive planet *)

Lemma mass_ratio_pos (mStar mPlt : R) :
  0 < mStar -> 0 < mPlt -> 0 < mPlt * 9.55e-4 / mStar.
Proof. intros HS HP. apply Rdiv_lt_0_compat; lra. Qed.

(** Every run of [GetDiffusionTimescale_yr] for a massive planet on
    positive axes. *)
Lemma diffusion_run (mStar mPlt aPlt aTest : R) :
  0 < mStar -> 0 < mPlt -> 0 < aPlt -> 0 < aTest ->
  GetDiffusionTimescale_yr mStar mPlt aPlt aTest
  = ([CallOrbitalPeriod aPlt mStar],
     inr (Finite (0.01 * (2 * PI / mean_motion aPlt mStar)
                  * Rpower (Rmin (aPlt / aTest) (aTest / aPlt)) 0.5
                  * Rpower (mPlt * 9.55e-4 / mStar) (-2)))).
Proof.
  intros HS HM HP HT.
  pose proof (Rmin_ratio_pos aPlt aTest HP HT) as Halpha.
  pose proof (mass_ratio_pos mStar mPlt HS HM) as Hmu.
  unfold GetDiffusionTimescale_yr, mJup_mSun.
  destruct (Req_dec_T mPlt 0); [lra |].
  rewrite alpha_of_run, bind_ret by lra.
  rewrite (bind_run _ _ _ _ (orbital_period_run aPlt mStar
             ltac:(lra) ltac:(lra))).
  rewrite pypow_pos, bind_ret by exact Halpha.
  rewrite pydiv_ok, bind_ret by lra.
  rewrite pypow_pos, bind_ret by exact Hmu.
  reflexivity.
Qed.

Section Secular.

Variable quad : (R -> xfloat) -> R -> R -> xfloat.

(** [GetLaplaceCoefficient] never raises: it scales whatever the
    quadrature hands back by [1/pi]. *)
Lemma laplace_coefficient_run (j s alpha : R) :
  GetLaplaceCoefficient quad j s alpha
  = ([CallLaplaceCoefficient j s alpha; CallQuad 0 (2 * PI)],
     inr (xscale (1 / PI)
            (quad (laplaceCoefficientIntegrand j s alpha) 0 (2 * PI)))).
Proof.
  unfold GetLaplaceCoefficient, np_pi.
  rewrite bind_emit, pydiv_ok, bind_ret, bind_emit by apply PI_neq0.
  reflexivity.
Qed.

(** Away from [alpha = 1] and [alpha = -1] the integrand is the
    classical one, [cos(j psi) / (1 - 2 alpha cos psi + alpha^2)^s]. *)
Lemma laplace_integrand_classical (j s alpha psi : R) :
  alpha <> 1 -> alpha <> -1 ->
  laplaceCoefficientIntegrand j s alpha psi
  = Finite (cos (j * psi)
            / Rpower (1 - 2 * alpha * cos psi + alpha ^ 2) s).
Proof.
  intros H1 Hm1. unfold laplaceCoefficientIntegrand.
  rewrite float_pow_2.
  assert (Hbase : 0 < 1 - 2 * alpha * cos psi + alpha ^ 2).
  { pose proof (COS_bound psi) as [Hlo Hhi].
    destruct (Rle_dec 0 alpha).
    - pose proof (Rsqr_pos_lt (1 - alpha) ltac:(lra)) as Hsq.
      unfold Rsqr in Hsq. nra.
    - pose proof (Rsqr_pos_lt (1 + alpha) ltac:(lra)) as Hsq.
      unfold Rsqr in Hsq. nra. }
  unfold np_pow. rewrite float_pow_pos by exact Hbase.
  unfold np_div.
  destruct (Req_dec_T (Rpower (1 - 2 * alpha * cos psi + alpha ^ 2) s) 0)
    as [E | _]; [| reflexivity].
  exfalso. unfold Rpower in E.
  pose proof (exp_pos (s * ln (1 - 2 * alpha * cos psi + alpha ^ 2))). lra.
Qed.

Lemma pydiv_x_silent (x : R) (b : xfloat) : fst (pydiv_x x b) = [].
Proof.
  destruct b as [r | | |]; try reflexivity.
  unfold pydiv_x, pydiv. destruct (Req_dec_T r 0); reflexivity.
Qed.

Lemma pydiv_x_finite (x r : R) :
  r <> 0 -> pydiv_x x (Finite r) = ret (Finite (x / r)).
Proof. intros Hr. unfold pydiv_x. now rewrite pydiv_ok, bind_ret. Qed.

Lemma pydiv_x_returns (x : R) (b : xfloat) :
  b <> Finite 0 -> exists v : xfloat, pydiv_x x b = ret v.
Proof.
  intros Hb. destruct b as [r | | |].
  - exists (Finite (x / r)). apply pydiv_x_finite. congruence.
  - now exists (Finite 0).
  - now exists (Finite 0).
  - now exists NaN.
Qed.

(** Every run of [GetSecularTimescale_yr] for a massive planet on
    positive axes: the calls it makes, and its outcome as that of the
    last division. *)
Lemma secular_run (mStar mPlt aPlt aTest : R) :
  0 < mStar -> 0 < mPlt -> 0 < aPlt -> 0 < aTest ->
  let alpha := Rmin (aPlt / aTest) (aTest / aPlt) in
  let T := 2 * PI / mean_motion aPlt mStar in
  let b := xscale (1 / PI)
             (quad (laplaceCoefficientIntegrand 1 1.5 alpha) 0 (2 * PI)) in
  let e := if Rle_dec aPlt aTest then -2.5 else -0.5 in
  GetSecularTimescale_yr quad mStar mPlt aPlt aTest
  = ([CallOrbitalPeriod aPlt mStar;
      CallLaplaceCoefficient 1 1.5 alpha;
      CallQuad 0 (2 * PI)],
     snd (pydiv_x (4 * T / (mPlt * 9.55e-4 / mStar) * Rpower alpha e) b)).
Proof.
  intros HS HM HP HT alpha T b e.
  pose proof (Rmin_ratio_pos aPlt aTest HP HT) as Halpha.
  pose proof (mass_ratio_pos mStar mPlt HS HM) as Hmu.
  unfold GetSecularTimescale_yr, mJup_mSun.
  destruct (Req_dec_T mPlt 0); [lra |].
  rewrite pydiv_ok, bind_ret by lra.
  rewrite alpha_of_run, bind_ret by lra.
  rewrite (bind_run _ _ _ _ (orbital_period_run aPlt mStar
             ltac:(lra) ltac:(lra))).
  rewrite (bind_run _ _ _ _ (laplace_coefficient_run 1 1.5 _)).
  fold alpha T b. subst e.
  destruct (Rle_dec aPlt aTest);
    rewrite pydiv_ok, bind_ret by lra;
    rewrite pypow_pos, bind_ret by exact Halpha;
    cbn [fst snd app]; rewrite pydiv_x_silent; reflexivity.
Qed.

End Secular.

(** ** The script body *)

Section Output.

Variable quad : (R -> xfloat) -> R -> R -> xfloat.
Variable format_e : nat -> xfloat -> string.

Lemma secular_template (x : xfloat) :
  pyformat format_e "Secular time: %.2e yr" x
  = ret ("Secular time: " ++ format_e 2%nat x ++ " yr")%string.
Proof. reflexivity. Qed.

Lemma diffusion_template (x : xfloat) :
  pyformat format_e "Diffusion time: %.2e yr" x
  = ret ("Diffusion time: " ++ format_e 2%nat x ++ " yr")%string.
Proof. reflexivity. Qed.

(** The script on positive inputs: when the Laplace coefficient that
    [quad] yields is not exactly zero, both functions return and the
    two lines are printed in order.  The diffusion time is finite, and
    so is the secular time when the coefficient is. *)
Lemma program_run (mStar mPlt aPlt aTest : R) :
  0 < mStar -> 0 < mPlt -> 0 < aPlt -> 0 < aTest ->
  ~ returns (GetLaplaceCoefficient quad 1 1.5
               (Rmin (aPlt / aTest) (aTest / aPlt))) (Finite 0) ->
  exists s d : xfloat,
    returns (GetSecularTimescale_yr quad mStar mPlt aPlt aTest) s
    /\ returns (GetDiffusionTimescale_yr mStar mPlt aPlt aTest) d
    /\ stdout (Program quad format_e mStar mPlt aPlt aTest)
       = [("Secular time: " ++ format_e 2%nat s ++ " yr")%string;
          ("Diffusion time: " ++ format_e 2%nat d ++ " yr")%string]
    /\ returns (Program quad format_e mStar mPlt aPlt aTest) tt
    /\ (exists r : R, d = Finite r)
    /\ (forall b : R,
          returns (GetLaplaceCoefficient quad 1 1.5
                     (Rmin (aPlt / aTest) (aTest / aPlt))) (Finite b) ->
          exists r : R, s = Finite r).
Proof.
  intros HS HM HP HT Hb.
  unfold returns in *. rewrite laplace_coefficient_run in *. cbn [snd] in *.
  set (B := xscale (1 / PI)
              (quad (laplaceCoefficientIntegrand 1 1.5
                       (Rmin (aPlt / aTest) (aTest / aPlt))) 0 (2 * PI))) in *.
  assert (Hb' : B <> Finite 0) by congruence.
  pose proof (secular_run quad mStar mPlt aPlt aTest HS HM HP HT) as Hsec.
  cbv zeta in Hsec. fold B in Hsec.
  set (X := 4 * (2 * PI / mean_motion aPlt mStar)
            / (mPlt * 9.55e-4 / mStar)
            * Rpower (Rmin (aPlt / aTest) (aTest / aPlt))
                (if Rle_dec aPlt aTest then -2.5 else -0.5)) in *.
  destruct (pydiv_x_returns X B Hb') as [s Hs].
  rewrite Hs in Hsec. cbn [snd ret] in Hsec.
  pose proof (diffusion_run mStar mPlt aPlt aTest HS HM HP HT) as Hdif.
  eexists s, _. unfold stdout, trace.
  rewrite Hsec, Hdif. cbn [snd].
  split; [reflexivity |]. split; [reflexivity |].
  unfold Program.
  rewrite (bind_run _ _ _ _ Hsec), secular_template, bind_ret, bind_emit.
  rewrite (bind_run _ _ _ _ Hdif), diffusion_template, bind_ret.
  split; [reflexivity |]. split; [reflexivity |].
  split; [eexists; reflexivity |].
  intros b Hbval. injection Hbval as Hbval.
  assert (Hb0 : b <> 0) by (intros ->; apply Hb'; exact Hbval).
  rewrite Hbval, pydiv_x_finite in Hs by exact Hb0.
  injection Hs as <-. eexists; reflexivity.
Qed.

(** C8.  The script as shipped prints exactly two lines, first
    [Secular time: <value> yr] and then [Diffusion time: <value> yr],
    each value being the function's result under the [%.2e] conversion
    (scientific notation, two digits after the point), and ends without
    an exception; the Laplace coefficient handed back by the quadrature
    is taken not to be exactly zero.  The diffusion time is finite, and
    so is the secular time when the coefficient is. *)
Theorem main_prints_two_lines :
  ~ returns (GetLaplaceCoefficient quad 1 1.5 (5.2 / 6)) (Finite 0) ->
  exists s d : xfloat,
    returns (GetSecularTimescale_yr quad 1 1 5.2 6) s
    /\ returns (GetDiffusionTimescale_yr 1 1 5.2 6) d
    /\ stdout (main quad format_e)
       = [("Secular time: " ++ format_e 2%nat s ++ " yr")%string;
          ("Diffusion time: " ++ format_e 2%nat d ++ " yr")%string]
    /\ returns (main quad format_e) tt
    /\ (exists r : R, d = Finite r)
    /\ (forall b : R,
          returns (GetLaplaceCoefficient quad 1 1.5 (5.2 / 6)) (Finite b) ->
          exists r : R, s = Finite r).
Proof.
  intros Hb.
  assert (Hmin : Rmin (5.2 / 6) (6 / 5.2) = 5.2 / 6)
    by (apply Rmin_ratio_below; lra).
  rewrite <- Hmin in *.
  apply (program_run 1 1 5.2 6); try lra. exact Hb.
Qed.

End Output.

(** ** The functions on concrete inputs *)

Lemma rectangle_laplace_run (alpha : R) :
  alpha <> 1 -> alpha <> -1 ->
  returns (GetLaplaceCoefficient rectangle_rule 1 1.5 alpha)
          (Finite (rectangle_b1_32 alpha)).
Proof.
  intros H1 Hm1. unfold returns.
  rewrite laplace_coefficient_run. unfold rectangle_rule.
  now rewrite laplace_integrand_classical.
Qed.

Lemma rectangle_b1_32_nonzero (alpha : R) : rectangle_b1_32 alpha <> 0.
Proof.
  unfold rectangle_b1_32. pose proof PI_RGT_0 as Hpi.
  rewrite Rmult_0_r, cos_0.
  set (p := Rpower (1 - 2 * alpha * 1 + alpha ^ 2) 1.5).
  assert (Hp : 0 < p) by (unfold p, Rpower; apply exp_pos).
  assert (H : 0 < 1 / PI * ((2 * PI - 0) * (1 / p))).
  { apply Rmult_lt_0_compat; [apply Rdiv_lt_0_compat; lra |].
    apply Rmult_lt_0_compat; [lra | apply Rdiv_lt_0_compat; lra]. }
  lra.
Qed.

Lemma default_alpha_range : 0 < Rmin (5.2 / 6) (6 / 5.2) < 1.
Proof. apply Rmin_ratio_range; lra. Qed.

(** The shipped script under the rectangle rule and a fixed formatter. *)
Lemma main_prints_two_lines_witness :
  stdout (main rectangle_rule fixed_format)
  = ["Secular time: # yr"%string; "Diffusion time: # yr"%string]
  /\ returns (main rectangle_rule fixed_format) tt.
Proof.
  assert (Hb : ~ returns (GetLaplaceCoefficient rectangle_rule 1 1.5 (5.2 / 6))
                         (Finite 0)).
  { intros H. pose proof (rectangle_laplace_run (5.2 / 6)
                            ltac:(lra) ltac:(lra)) as H'.
    unfold returns in *. rewrite H' in H. injection H as H.
    exact (rectangle_b1_32_nonzero _ H). }
  destruct (main_prints_two_lines rectangle_rule fixed_format Hb)
    as (s & d & _ & _ & Hout & Hret & _).
  split; [exact Hout | exact Hret].
Defined.

(** * Further properties of the code *)

(** ** The sign of the semimajor axis *)

Lemma mean_motion_opp_axis (a m : R) :
  a <> 0 -> mean_motion (- a) m = mean_motion a m.
Proof.
  intros Ha. unfold mean_motion. f_equal.
  replace (4 * PI ^ 2 * m / (- a) ^ 3) with (- (4 * PI ^ 2 * m / a ^ 3))
    by (field; exact Ha).
  apply Rabs_Ropp.
Qed.

(** ** The axis ratio on every pair of axes *)

Lemma alpha_of_zero_planet (aTest : R) :
  aTest <> 0 -> alpha_of 0 aTest = raise ZeroDivisionError.
Proof.
  intros HT. unfold alpha_of.
  now rewrite pydiv_ok, bind_ret, pydiv_zero by exact HT.
Qed.

(** X4.  The axis ratio raises [ZeroDivisionError] exactly when one of
    the two axes is zero; any other pair gives a value. *)
Theorem alpha_raises_iff_zero_axis (aPlt aTest : R) :
  (raises (alpha_of aPlt aTest) ZeroDivisionError
   <-> aPlt = 0 \/ aTest = 0)
  /\ ((exists alpha : R, returns (alpha_of aPlt aTest) alpha)
      <-> aPlt <> 0 /\ aTest <> 0).
Proof.
  unfold raises, returns.
  destruct (Req_dec_T aTest 0) as [-> | HT].
  - rewrite alpha_of_zero_test. split; split.
    + intros _. now right.
    + reflexivity.
    + intros [x Hx]. discriminate.
    + intros [_ H]. now contradiction H.
  - destruct (Req_dec_T aPlt 0) as [-> | HP].
    + rewrite alpha_of_zero_planet by exact HT. split; split.
      * intros _. now left.
      * reflexivity.
      * intros [x Hx]. discriminate.
      * intros [H _]. now contradiction H.
    + rewrite alpha_of_run by assumption. split; split.
      * intros H. discriminate.
      * intros [H | H]; contradiction.
      * intros _. now split.
      * intros _. eexists. reflexivity.
Qed.

Lemma Rmin_ratio_opposite (x y : R) :
  x * y < 0 -> Rmin (x / y) (y / x) <= -1.
Proof.
  intros Hxy.
  assert (Hx : x <> 0) by nra. assert (Hy : y <> 0) by nra.
  assert (Hr : x / y < 0).
  { replace (x / y) with (x * y * (/ y * / y)) by (field; exact Hy).
    assert (0 < / y * / y).
    { pose proof (Rinv_neq_0_compat y Hy).
      pose proof (Rsqr_pos_lt (/ y) ltac:(assumption)) as Hs.
      exact Hs. }
    nra. }
  assert (Hinv : y / x = / (x / y)) by (field; split; assumption).
  destruct (Rle_dec (x / y) (-1)) as [Hle | Hgt].
  - pose proof (Rmin_l (x / y) (y / x)). lra.
  - pose proof (Rmin_r (x / y) (y / x)) as Hm.
    assert (Hlt : -1 < x / y) by lra.
    assert (Hyx : y / x < -1).
    { rewrite Hinv.
      assert (Hpos : 0 < - (x / y)) by lra.
      assert (H1 : 1 < / (- (x / y))).
      { rewrite <- Rinv_1. apply Rinv_lt_contravar; lra. }
      rewrite Rinv_opp in H1. lra. }
    lra.
Qed.

(** X6.  For axes of opposite signs the ratio is at most [-1], outside
    the interval the source comment promises. *)
Theorem alpha_opposite_signs (aPlt aTest : R) :
  aPlt * aTest < 0 ->
  exists alpha : R,
    returns (alpha_of aPlt aTest) alpha /\ alpha <= -1.
Proof.
  intros Hs. exists (Rmin (aPlt / aTest) (aTest / aPlt)).
  unfold returns. rewrite alpha_of_run by nra.
  split; [reflexivity | now apply Rmin_ratio_opposite].
Qed.

(** ** What the script prints without a planet *)

Section Lines.

Variable quad : (R -> xfloat) -> R -> R -> xfloat.
Variable format_e : nat -> xfloat -> string.

(** The script after two successful calls. *)
Lemma program_both_return (mStar mPlt aPlt aTest : R) tr s tr' d :
  GetSecularTimescale_yr quad mStar mPlt aPlt aTest = (tr, inr s) ->
  printed tr = [] ->
  GetDiffusionTimescale_yr mStar mPlt aPlt aTest = (tr', inr d) ->
  printed tr' = [] ->
  stdout (Program quad format_e mStar mPlt aPlt aTest)
  = [("Secular time: " ++ format_e 2%nat s ++ " yr")%string;
     ("Diffusion time: " ++ format_e 2%nat d ++ " yr")%string]
  /\ returns (Program quad format_e mStar mPlt aPlt aTest) tt.
Proof.
  intros Hsec Hq Hdif Hq'. unfold returns, stdout, trace, Program.
  rewrite (bind_run _ _ _ _ Hsec), secular_template, bind_ret, bind_emit.
  rewrite (bind_run _ _ _ _ Hdif), diffusion_template, bind_ret.
  cbn [fst snd emit].
  assert (Happ : forall t1 t2, printed (t1 ++ t2) = (printed t1 ++ printed t2)%list).
  { induction t1 as [| [] t1 IH]; intros t2; cbn; rewrite ?IH; reflexivity. }
  rewrite Happ, Hq. cbn [app printed]. rewrite Happ, Hq'.
  split; reflexivity.
Qed.

(** X23.  With a planet mass of zero the script prints both lines, each
    carrying the formatted [inf], and ends normally, whatever the stellar
    mass and the axes are, zero included. *)
Theorem program_zero_mass_output (mStar aPlt aTest : R) :
  stdout (Program quad format_e mStar 0 aPlt aTest)
  = [("Secular time: " ++ format_e 2%nat np_inf ++ " yr")%string;
     ("Diffusion time: " ++ format_e 2%nat np_inf ++ " yr")%string]
  /\ returns (Program quad format_e mStar 0 aPlt aTest) tt.
Proof.
  apply (program_both_return mStar 0 aPlt aTest [] np_inf [] np_inf).
  - apply secular_zero_mass_run.
  - reflexivity.
  - apply diffusion_zero_mass_run.
  - reflexivity.
Qed.

End Lines.

(** ** The axis ratio on concrete inputs *)

Lemma alpha_raises_iff_zero_axis_witness :
  raises (alpha_of 5.2 0) ZeroDivisionError
  /\ exists alpha : R, returns (alpha_of 5.2 6) alpha.
Proof.
  split.
  - apply (proj1 (alpha_raises_iff_zero_axis 5.2 0)). right. reflexivity.
  - apply (proj2 (alpha_raises_iff_zero_axis 5.2 6)). split; lra.
Defined.

Lemma alpha_opposite_signs_witness :
  exists alpha : R, returns (alpha_of (-1) 2) alpha /\ alpha <= -1.
Proof. apply (alpha_opposite_signs (-1) 2); lra. Defined.

(** * Properties within the range of binary64 *)

(** ** The two thresholds *)

Lemma overflow_threshold_above : 1e300 < B64.overflow_threshold.
Proof.
  unfold B64.overflow_threshold.
  let z := eval vm_compute in (2 ^ 1024 - 2 ^ 970)%Z in
    change (2 ^ 1024 - 2 ^ 970)%Z with z.
  lra.
Qed.

Lemma overflow_threshold_below : B64.overflow_threshold < 1e309.
Proof.
  unfold B64.overflow_threshold.
  let z := eval vm_compute in (2 ^ 1024 - 2 ^ 970)%Z in
    change (2 ^ 1024 - 2 ^ 970)%Z with z.
  lra.
Qed.

Lemma underflow_threshold_below : B64.underflow_threshold < 1e-300.
Proof.
  unfold B64.underflow_threshold.
  let z := eval vm_compute in (2 ^ 1075)%Z in change (2 ^ 1075)%Z with z.
  lra.
Qed.

Lemma underflow_threshold_above : 1e-324 < B64.underflow_threshold.
Proof.
  unfold B64.underflow_threshold.
  let z := eval vm_compute in (2 ^ 1075)%Z in change (2 ^ 1075)%Z with z.
  lra.
Qed.

Lemma underflow_threshold_pos : 0 < B64.underflow_threshold.
Proof. pose proof underflow_threshold_above. lra. Qed.

(** ** Results inside the range are delivered exactly *)

Lemma normal_nonzero (r : R) : normal r -> r <> 0.
Proof.
  intros [Hlo _] ->. rewrite Rabs_R0 in Hlo. lra.
Qed.

Lemma normal_pos (r : R) : 0 < r -> normal r -> 1e-300 <= r <= 1e300.
Proof. intros Hr [Hlo Hhi]. rewrite Rabs_pos_eq in * by lra. lra. Qed.

Lemma normal_of_pos (r : R) : 1e-300 <= r <= 1e300 -> normal r.
Proof. intros H. unfold normal. rewrite Rabs_pos_eq by lra. exact H. Qed.

Lemma normal_Rabs (r : R) : normal r -> normal (Rabs r).
Proof. unfold normal. now rewrite Rabs_Rabsolu. Qed.

Lemma normal_opp (r : R) : normal r -> normal (- r).
Proof. unfold normal. now rewrite Rabs_Ropp. Qed.

Lemma normal_inv (r : R) : normal r -> normal (/ r).
Proof.
  intros Hn. pose proof (normal_nonzero r Hn) as Hr0.
  destruct Hn as [Hlo Hhi]. unfold normal. rewrite Rabs_inv.
  assert (Hpos : 0 < Rabs r) by lra.
  split.
  - apply Rmult_le_reg_r with (Rabs r); [exact Hpos |].
    rewrite Rinv_l by lra. nra.
  - apply Rmult_le_reg_r with (Rabs r); [exact Hpos |].
    rewrite Rinv_l by lra. nra.
Qed.

Lemma deliver_normal (r : R) : normal r -> B64.deliver r = Finite r.
Proof.
  intros [Hlo Hhi]. unfold B64.deliver.
  pose proof overflow_threshold_above. pose proof underflow_threshold_below.
  destruct (Rle_dec B64.overflow_threshold (Rabs r)); [lra |].
  destruct (Rle_dec (Rabs r) B64.underflow_threshold); [lra | reflexivity].
Qed.

Lemma deliver_zero : B64.deliver 0 = Finite 0.
Proof.
  unfold B64.deliver. rewrite Rabs_R0.
  pose proof overflow_threshold_above. pose proof underflow_threshold_pos.
  destruct (Rle_dec B64.overflow_threshold 0); [lra |].
  destruct (Rle_dec 0 B64.underflow_threshold); [reflexivity | lra].
Qed.

Lemma deliver_tiny (r : R) :
  Rabs r <= 1e-324 -> B64.deliver r = Finite 0.
Proof.
  intros Hr. unfold B64.deliver.
  pose proof overflow_threshold_above. pose proof underflow_threshold_above.
  destruct (Rle_dec B64.overflow_threshold (Rabs r)); [lra |].
  destruct (Rle_dec (Rabs r) B64.underflow_threshold); [reflexivity | lra].
Qed.

Lemma deliver_huge (r : R) : 1e309 <= r -> B64.deliver r = PInf.
Proof.
  intros Hr. unfold B64.deliver, B64.positive.
  pose proof overflow_threshold_below.
  rewrite Rabs_pos_eq by lra.
  destruct (Rle_dec B64.overflow_threshold r); [| lra].
  destruct (Rlt_dec 0 r); [reflexivity | lra].
Qed.

Lemma xmul_normal (a b : R) :
  normal (a * b) -> B64.xmul (Finite a) (Finite b) = Finite (a * b).
Proof. intros H. cbn. now apply deliver_normal. Qed.

Lemma pydiv_finite (a b : R) :
  b <> 0 -> B64.pydiv (Finite a) (Finite b) = B64.ret (B64.deliver (a / b)).
Proof.
  intros Hb. unfold B64.pydiv, B64.is_zero.
  destruct (Req_dec_T b 0); [contradiction | reflexivity].
Qed.

Lemma pydiv_normal (a b : R) :
  b <> 0 -> normal (a / b) ->
  B64.pydiv (Finite a) (Finite b) = B64.ret (Finite (a / b)).
Proof.
  intros Hb Hn. rewrite pydiv_finite by exact Hb. now rewrite deliver_normal.
Qed.

Lemma pydiv_by_zero (x : xfloat) :
  B64.pydiv x (Finite 0) = B64.raise B64.ZeroDivisionError.
Proof.
  unfold B64.pydiv, B64.is_zero.
  destruct (Req_dec_T 0 0); [reflexivity | contradiction].
Qed.

Lemma pow_finish_normal (v : R) :
  0 < v -> normal v -> B64.pow_finish false v = B64.ret (Finite v).
Proof.
  intros Hv Hn. destruct (normal_pos v Hv Hn) as [Hlo Hhi].
  unfold B64.pow_finish.
  pose proof overflow_threshold_above. pose proof underflow_threshold_below.
  destruct (Rle_dec B64.overflow_threshold v); [lra |].
  destruct (Rle_dec v B64.underflow_threshold); [lra | reflexivity].
Qed.

Lemma pypow_positive (r y : R) :
  0 < r -> y <> 0 ->
  B64.pypow (Finite r) y = B64.pow_finish false (Rpower r y).
Proof.
  intros Hr Hy. unfold B64.pypow.
  destruct (Req_dec_T y 0); [contradiction |].
  destruct (Req_dec_T r 0); [lra |].
  destruct (Rlt_dec r 0); [lra | reflexivity].
Qed.

Lemma pypow_normal (r y : R) :
  0 < r -> y <> 0 -> normal (Rpower r y) ->
  B64.pypow (Finite r) y = B64.ret (Finite (Rpower r y)).
Proof.
  intros Hr Hy Hn. rewrite pypow_positive by assumption.
  apply pow_finish_normal; [unfold Rpower; apply exp_pos | exact Hn].
Qed.

Lemma Rpower_nat (r : R) (n : nat) : 0 < r -> Rpower r (INR n) = r ^ n.
Proof. intros Hr. now apply Rpower_pow. Qed.

Lemma is_integer_IZR (z : Z) : B64.is_integer (IZR z) = true.
Proof.
  unfold B64.is_integer. rewrite Int_part_IZR.
  destruct (Req_dec_T (IZR z) (IZR z)); [reflexivity | contradiction].
Qed.

Lemma is_odd_integer_IZR (z : Z) : B64.is_odd_integer (IZR z) = Z.odd z.
Proof.
  unfold B64.is_odd_integer. now rewrite is_integer_IZR, Int_part_IZR.
Qed.

(** The cube [a**3] of a nonzero float of either sign. *)
Lemma pypow_cube (a : R) :
  a <> 0 -> normal (a ^ 3) ->
  B64.pypow (Finite a) 3 = B64.ret (Finite (a ^ 3)).
Proof.
  intros Ha Hn.
  destruct (Rlt_dec 0 a) as [Hpos | Hneg].
  - replace 3 with (INR 3) at 1 by (simpl; lra).
    rewrite pypow_normal; rewrite ?Rpower_nat; try assumption; try reflexivity.
    apply not_0_INR. lia.
  - assert (Hlt : a < 0) by lra.
    assert (Hpow : Rpower (- a) 3 = - a ^ 3).
    { replace 3 with (INR 3) at 1 by (simpl; lra).
      rewrite Rpower_nat by lra. ring. }
    unfold B64.pypow.
    destruct (Req_dec_T 3 0); [lra |].
    destruct (Req_dec_T a 0); [contradiction |].
    destruct (Rlt_dec a 0); [| lra].
    rewrite is_integer_IZR, is_odd_integer_IZR.
    change (Z.odd 3) with true. cbv iota.
    rewrite Hpow. unfold B64.pow_finish.
    assert (Hn' : normal (- a ^ 3)) by (now apply normal_opp).
    assert (Hp : 0 < - a ^ 3).
    { assert (Hsq : 0 < a * a) by nra.
      replace (a ^ 3) with (a * (a * a)) by ring. nra. }
    destruct (normal_pos _ Hp Hn') as [Hlo Hhi].
    pose proof overflow_threshold_above. pose proof underflow_threshold_below.
    destruct (Rle_dec B64.overflow_threshold (- a ^ 3)); [lra |].
    destruct (Rle_dec (- a ^ 3) B64.underflow_threshold); [lra |].
    unfold B64.ret. do 2 f_equal. ring.
Qed.

Lemma PI_gt_3 : 3 < PI.
Proof. pose proof PI2_3_2. lra. Qed.

Lemma PI_sq_bounds : 9 < PI ^ 2 <= 16.
Proof.
  pose proof PI_gt_3. pose proof PI_4.
  replace (PI ^ 2) with (PI * PI) by ring. nra.
Qed.

Lemma pypow_pi_squared :
  B64.pypow (Finite np_pi) 2 = B64.ret (Finite (PI ^ 2)).
Proof.
  unfold np_pi. pose proof PI_RGT_0 as Hpi. pose proof PI_sq_bounds.
  replace 2 with (INR 2) at 1 by (simpl; lra).
  rewrite pypow_normal; rewrite ?Rpower_nat; try assumption; try reflexivity.
  - apply not_0_INR. lia.
  - apply normal_of_pos. lra.
Qed.

Lemma normal_sqrt (q : R) : normal q -> normal (sqrt (Rabs q)).
Proof.
  intros [Hlo Hhi].
  assert (Hq : 0 <= Rabs q) by lra.
  pose proof (sqrt_sqrt (Rabs q) Hq) as Hs.
  pose proof (sqrt_pos (Rabs q)) as Hp.
  apply normal_of_pos. split.
  - destruct (Rle_dec 1e-300 (sqrt (Rabs q))); [assumption |].
    assert (sqrt (Rabs q) < 1e-300) by lra. nra.
  - destruct (Rle_dec (sqrt (Rabs q)) 1e300); [assumption |].
    assert (1e300 < sqrt (Rabs q)) by lra. nra.
Qed.

Lemma sqrt_normal_bounds (q : R) :
  normal q -> 1e-150 <= sqrt (Rabs q) <= 1e150.
Proof.
  intros [Hlo Hhi].
  assert (Hq : 0 <= Rabs q) by lra.
  pose proof (sqrt_sqrt (Rabs q) Hq) as Hs.
  pose proof (sqrt_pos (Rabs q)) as Hp.
  split.
  - destruct (Rle_dec 1e-150 (sqrt (Rabs q))); [assumption |].
    assert (sqrt (Rabs q) < 1e-150) by lra. nra.
  - destruct (Rle_dec (sqrt (Rabs q)) 1e150); [assumption |].
    assert (1e150 < sqrt (Rabs q)) by lra. nra.
Qed.

(** ** The orbital period within the range *)

Lemma inv_bounds_150 (n : R) :
  1e-150 <= n <= 1e150 -> 1e-150 <= / n <= 1e150.
Proof.
  intros [Hlo Hhi].
  assert (Hn : 0 < n) by lra.
  pose proof (Rinv_0_lt_compat n Hn) as Hi.
  pose proof (Rinv_r n ltac:(lra)) as Hni.
  split.
  - destruct (Rle_dec 1e-150 (/ n)); [assumption |].
    assert (/ n < 1e-150) by lra. nra.
  - destruct (Rle_dec (/ n) 1e150); [assumption |].
    assert (1e150 < / n) by lra. nra.
Qed.

Lemma mean_motion_in_range (a m : R) :
  orbital_in_range a m -> 1e-150 <= mean_motion a m <= 1e150.
Proof. intros (_ & _ & Hq). unfold mean_motion. now apply sqrt_normal_bounds. Qed.

Lemma period_in_range (a m : R) :
  orbital_in_range a m ->
  6e-150 <= 2 * PI / mean_motion a m <= 8e150.
Proof.
  intros Hr. pose proof (mean_motion_in_range a m Hr) as Hn.
  pose proof (inv_bounds_150 _ Hn) as Hi.
  pose proof PI_gt_3. pose proof PI_4.
  unfold Rdiv. set (i := / mean_motion a m) in *. nra.
Qed.

(** Every run of [GetOrbitalPeriod_yr] whose intermediate results stay
    inside the range. *)
Lemma b64_orbital_period_run (a m : R) :
  a <> 0 -> orbital_in_range a m ->
  B64.GetOrbitalPeriod_yr a m
  = B64.ret (Finite (2 * PI / mean_motion a m)).
Proof.
  intros Ha Hr. pose proof Hr as (Ha3 & Hm & Hq).
  pose proof (mean_motion_in_range a m Hr) as Hn.
  pose proof (period_in_range a m Hr) as HT.
  pose proof PI_gt_3 as Hpi3. pose proof PI_4 as Hpi4.
  pose proof PI_sq_bounds as Hpi2.
  unfold B64.GetOrbitalPeriod_yr.
  rewrite pypow_pi_squared. cbn [B64.bind B64.ret].
  rewrite pypow_cube by assumption. cbn [B64.bind B64.ret].
  rewrite (xmul_normal 4 (PI ^ 2)) by (apply normal_of_pos; lra).
  rewrite xmul_normal by exact Hm.
  rewrite pydiv_normal by (try apply pow_nonzero; assumption).
  cbn [B64.bind B64.ret B64.xabs].
  assert (Hqpos : 0 < Rabs (4 * PI ^ 2 * m / a ^ 3)).
  { apply Rabs_pos_lt. now apply normal_nonzero. }
  rewrite pypow_normal; try assumption; try lra.
  2:{ rewrite Rpower_half by exact Hqpos. now apply normal_sqrt. }
  rewrite Rpower_half by exact Hqpos. fold (mean_motion a m).
  cbn [B64.bind B64.ret]. unfold np_pi.
  rewrite (xmul_normal 2 PI) by (apply normal_of_pos; lra).
  rewrite pydiv_normal; [reflexivity | lra | apply normal_of_pos; lra].
Qed.

(** A cube that underflows: the division by [a_au**3] raises. *)
Lemma orbital_period_cube_underflow (a m : R) :
  0 < a -> a ^ 3 <= 1e-324 ->
  B64.GetOrbitalPeriod_yr a m = B64.raise B64.ZeroDivisionError.
Proof.
  intros Ha Hsmall. unfold B64.GetOrbitalPeriod_yr.
  rewrite pypow_pi_squared. cbn [B64.bind B64.ret].
  rewrite pypow_positive by lra.
  replace 3 with (INR 3) at 1 by (simpl; lra).
  rewrite Rpower_nat by exact Ha.
  unfold B64.pow_finish.
  pose proof overflow_threshold_above. pose proof underflow_threshold_above.
  destruct (Rle_dec B64.overflow_threshold (a ^ 3)); [lra |].
  destruct (Rle_dec (a ^ 3) B64.underflow_threshold); [| lra].
  cbn [B64.bind B64.ret]. now rewrite pydiv_by_zero.
Qed.

(** A cube that overflows: the power raises. *)
Lemma orbital_period_cube_overflow (a m : R) :
  0 < a -> 1e309 <= a ^ 3 ->
  B64.GetOrbitalPeriod_yr a m = B64.raise B64.OverflowError.
Proof.
  intros Ha Hbig. unfold B64.GetOrbitalPeriod_yr.
  rewrite pypow_pi_squared. cbn [B64.bind B64.ret].
  rewrite pypow_positive by lra.
  replace 3 with (INR 3) at 1 by (simpl; lra).
  rewrite Rpower_nat by exact Ha.
  unfold B64.pow_finish.
  pose proof overflow_threshold_below.
  destruct (Rle_dec B64.overflow_threshold (a ^ 3)); [reflexivity | lra].
Qed.

Lemma orbital_in_range_abs_mass (a m : R) :
  orbital_in_range a m -> orbital_in_range a (Rabs m).
Proof.
  intros (Ha3 & Hm & Hq). unfold orbital_in_range, normal in *.
  unfold Rdiv in *. rewrite !Rabs_mult in *. rewrite Rabs_Rabsolu.
  repeat split; tauto.
Qed.

Lemma pow_finish_not_complex (neg : bool) (v : R) :
  B64.pow_finish neg v <> inl B64.EntersComplex.
Proof.
  unfold B64.pow_finish.
  destruct (Rle_dec B64.overflow_threshold v); [discriminate |].
  destruct (Rle_dec v B64.underflow_threshold); discriminate.
Qed.

(** The power enters complex arithmetic only from a negative finite
    base with a fractional exponent. *)
Lemma pypow_enters_complex (x : xfloat) (y : R) :
  B64.pypow x y = inl B64.EntersComplex ->
  exists r : R, x = Finite r /\ r < 0 /\ B64.is_integer y = false.
Proof.
  unfold B64.pypow.
  destruct (Req_dec_T y 0); [discriminate |].
  destruct x as [r | | |].
  - destruct (Req_dec_T r 0).
    { destruct (Rlt_dec y 0); discriminate. }
    destruct (Rlt_dec r 0) as [Hneg | _].
    + destruct (B64.is_integer y) eqn:Hint.
      * intros H. now apply pow_finish_not_complex in H.
      * intros _. exists r. auto.
    + intros H. now apply pow_finish_not_complex in H.
  - destruct (Rlt_dec 0 y); discriminate.
  - destruct (Rlt_dec 0 y); [destruct (B64.is_odd_integer y) |]; discriminate.
  - discriminate.
Qed.

Lemma pydiv_not_complex (x y : xfloat) :
  B64.pydiv x y <> inl B64.EntersComplex.
Proof. unfold B64.pydiv. destruct (B64.is_zero y); discriminate. Qed.

Lemma xabs_not_negative (x : xfloat) (r : R) :
  B64.xabs x = Finite r -> 0 <= r.
Proof.
  destruct x; cbn; try discriminate.
  intros H. injection H as <-. apply Rabs_pos.
Qed.

Lemma orbital_period_not_complex (a m : R) :
  B64.GetOrbitalPeriod_yr a m <> inl B64.EntersComplex.
Proof.
  unfold B64.GetOrbitalPeriod_yr.
  rewrite pypow_pi_squared. cbn [B64.bind B64.ret].
  destruct (B64.pypow (Finite a) 3) as [s | a3] eqn:E3.
  { cbn [B64.bind]. intros H. injection H as ->.
    apply pypow_enters_complex in E3 as (r & _ & _ & Hint).
    replace 3 with (IZR 3) in Hint by reflexivity.
    rewrite is_integer_IZR in Hint. discriminate. }
  cbn [B64.bind].
  destruct (B64.pydiv _ a3) as [s | q] eqn:Eq.
  { cbn [B64.bind]. intros H. injection H as ->.
    now apply pydiv_not_complex in Eq. }
  cbn [B64.bind].
  destruct (B64.pypow (B64.xabs q) 0.5) as [s | n] eqn:En.
  { cbn [B64.bind]. intros H. injection H as ->.
    apply pypow_enters_complex in En as (r & Hr & Hneg & _).
    apply xabs_not_negative in Hr. lra. }
  cbn [B64.bind]. apply pydiv_not_complex.
Qed.

Lemma deliver_opp (r : R) : B64.deliver (- r) = B64.xneg (B64.deliver r).
Proof.
  unfold B64.deliver, B64.positive. rewrite Rabs_Ropp.
  pose proof overflow_threshold_above as Hovf.
  destruct (Rle_dec B64.overflow_threshold (Rabs r)) as [Hbig | _].
  - assert (Hr : r <> 0).
    { intros ->. rewrite Rabs_R0 in Hbig. lra. }
    destruct (Rlt_dec 0 (- r)), (Rlt_dec 0 r); try reflexivity; lra.
  - destruct (Rle_dec (Rabs r) B64.underflow_threshold); cbn [B64.xneg].
    + f_equal. ring.
    + reflexivity.
Qed.

Lemma xneg_signed_inf (pos : bool) :
  B64.xneg (B64.signed_inf pos) = B64.signed_inf (negb pos).
Proof. destruct pos; reflexivity. Qed.

Lemma xquot_neg (x y : xfloat) :
  B64.xquot (B64.xneg x) y = B64.xneg (B64.xquot x y).
Proof.
  destruct x as [a | | |], y as [b | | |]; cbn [B64.xneg B64.xquot];
    try reflexivity.
  - replace (- a / b) with (- (a / b)) by (unfold Rdiv; ring).
    apply deliver_opp.
  - f_equal. ring.
  - f_equal. ring.
  - now rewrite xneg_signed_inf.
  - rewrite xneg_signed_inf. now rewrite Bool.negb_involutive.
Qed.

Lemma xabs_neg (x : xfloat) : B64.xabs (B64.xneg x) = B64.xabs x.
Proof.
  destruct x; cbn [B64.xneg B64.xabs]; try reflexivity.
  now rewrite Rabs_Ropp.
Qed.

(** The stellar mass enters [GetOrbitalPeriod_yr] through the absolute
    value only: [mStar] and [-mStar] have the same outcome on every
    input, errors included. *)
Lemma b64_orbital_period_opp_mass (a m : R) :
  B64.GetOrbitalPeriod_yr a (- m) = B64.GetOrbitalPeriod_yr a m.
Proof.
  pose proof PI_sq_bounds as Hpi2.
  unfold B64.GetOrbitalPeriod_yr.
  rewrite pypow_pi_squared. cbn [B64.bind B64.ret].
  destruct (B64.pypow (Finite a) 3) as [s | a3]; [reflexivity |].
  cbn [B64.bind].
  rewrite (xmul_normal 4 (PI ^ 2)) by (apply normal_of_pos; lra).
  assert (Hneg : B64.xmul (Finite (4 * PI ^ 2)) (Finite (- m))
                 = B64.xneg (B64.xmul (Finite (4 * PI ^ 2)) (Finite m))).
  { cbn [B64.xmul].
    replace (4 * PI ^ 2 * - m) with (- (4 * PI ^ 2 * m)) by ring.
    apply deliver_opp. }
  rewrite Hneg. unfold B64.pydiv at 1 3.
  destruct (B64.is_zero a3); [reflexivity |].
  cbn [B64.bind B64.ret]. now rewrite xquot_neg, xabs_neg.
Qed.

Lemma b64_orbital_period_abs_mass (a m : R) :
  B64.GetOrbitalPeriod_yr a (Rabs m) = B64.GetOrbitalPeriod_yr a m.
Proof.
  unfold Rabs. destruct (Rcase_abs m); [| reflexivity].
  apply b64_orbital_period_opp_mass.
Qed.

(** C5, as amended.  For positive [a] and [mStar] whose cube
    [a**3], product [4*pi**2*mStar] and quotient all have a magnitude
    between 1e-300 and 1e300, [GetOrbitalPeriod_yr(a, mStar)] returns
    [2*pi / n] with mean motion [n = sqrt(4*pi^2*mStar / a^3)], and that
    value is positive. *)
Theorem b64_orbital_period_kepler (a mStar : R) :
  0 < a -> 0 < mStar -> orbital_in_range a mStar ->
  B64.returns (B64.GetOrbitalPeriod_yr a mStar)
              (Finite (2 * PI / sqrt (4 * PI ^ 2 * mStar / a ^ 3)))
  /\ 0 < 2 * PI / sqrt (4 * PI ^ 2 * mStar / a ^ 3).
Proof.
  intros Ha Hm Hr. pose proof PI_RGT_0 as Hpi.
  rewrite <- (mean_motion_positive_args a mStar Ha Hm).
  split.
  - unfold B64.returns. apply b64_orbital_period_run; [lra | exact Hr].
  - apply Rdiv_lt_0_compat; [lra |]. apply mean_motion_pos; lra.
Qed.

(** The claim C5 fails without the range: at [a = 1e-150] around one
    solar mass the cube underflows to zero and the call raises
    [ZeroDivisionError] where the claim has a positive period. *)
Lemma orbital_period_kepler_counterexample :
  0 < 1e-150 /\ 0 < 1
  /\ B64.raises (B64.GetOrbitalPeriod_yr 1e-150 1) B64.ZeroDivisionError
  /\ ~ (exists T : xfloat, B64.returns (B64.GetOrbitalPeriod_yr 1e-150 1) T).
Proof.
  assert (H : B64.GetOrbitalPeriod_yr 1e-150 1
              = B64.raise B64.ZeroDivisionError)
    by (apply orbital_period_cube_underflow; lra).
  split; [lra |]. split; [lra |]. unfold B64.raises, B64.returns. rewrite H.
  split; [reflexivity |]. intros [T HT]. discriminate.
Qed.



(** C10, as amended.  For nonzero [a] and [mStar] of either sign whose
    cube, product and quotient have a magnitude between 1e-300 and 1e300,
    [GetOrbitalPeriod_yr] returns a positive finite period, the same for
    [mStar] and for its absolute value, the mean motion being the square
    root of [|4*pi^2*mStar / a^3|].  On every input whatever, in or out
    of the range, the fractional power never sees a negative base, and
    [mStar] and its absolute value lead to the same outcome, errors
    included. *)
Theorem b64_orbital_period_abs_radicand (a mStar : R) :
  (a <> 0 -> mStar <> 0 -> orbital_in_range a mStar ->
   exists T : R,
     B64.returns (B64.GetOrbitalPeriod_yr a mStar) (Finite T)
     /\ T = 2 * PI / sqrt (Rabs (4 * PI ^ 2 * mStar / a ^ 3))
     /\ 0 < T
     /\ B64.returns (B64.GetOrbitalPeriod_yr a (Rabs mStar)) (Finite T))
  /\ B64.GetOrbitalPeriod_yr a mStar <> inl B64.EntersComplex
  /\ B64.GetOrbitalPeriod_yr a (Rabs mStar) = B64.GetOrbitalPeriod_yr a mStar.
Proof.
  split; [| split; [apply orbital_period_not_complex
                   | apply b64_orbital_period_abs_mass]].
  intros Ha Hm Hr. pose proof PI_RGT_0 as Hpi.
  exists (2 * PI / mean_motion a mStar). unfold B64.returns.
  rewrite !b64_orbital_period_run
    by (try apply orbital_in_range_abs_mass; assumption).
  rewrite mean_motion_abs_mass.
  split; [reflexivity |]. split; [reflexivity |].
  split; [| reflexivity].
  apply Rdiv_lt_0_compat; [lra | now apply mean_motion_pos].
Qed.

(** The claim C10 fails without the range: [a = 1e-150] and
    [mStar = -1] are nonzero, yet the cube underflows and the call raises
    [ZeroDivisionError]. *)
Lemma orbital_period_abs_radicand_counterexample :
  1e-150 <> 0 /\ -1 <> 0
  /\ B64.raises (B64.GetOrbitalPeriod_yr 1e-150 (-1)) B64.ZeroDivisionError
  /\ ~ (exists T : xfloat,
          B64.returns (B64.GetOrbitalPeriod_yr 1e-150 (-1)) T).
Proof.
  assert (H : B64.GetOrbitalPeriod_yr 1e-150 (-1)
              = B64.raise B64.ZeroDivisionError)
    by (apply orbital_period_cube_underflow; lra).
  split; [lra |]. split; [lra |]. unfold B64.raises, B64.returns. rewrite H.
  split; [reflexivity |]. intros [T HT]. discriminate.
Qed.

(** ** The axis ratio within the range *)

Lemma deliver_below_one (r : R) :
  0 < r -> r < 1 ->
  exists v : R,
    B64.deliver r = Finite v /\ 0 <= v < 1 /\ (normal r -> v = r).
Proof.
  intros Hpos Hlt. unfold B64.deliver.
  pose proof overflow_threshold_above. pose proof underflow_threshold_below.
  rewrite Rabs_pos_eq by lra.
  destruct (Rle_dec B64.overflow_threshold r); [lra |].
  destruct (Rle_dec r B64.underflow_threshold) as [Hu | Hu].
  - exists 0. split; [reflexivity |]. split; [lra |].
    intros [Hlo _]. rewrite Rabs_pos_eq in Hlo by lra. lra.
  - exists r. split; [reflexivity |]. split; [lra | reflexivity].
Qed.

Lemma deliver_above_one (r : R) :
  1 < r -> B64.deliver r = PInf \/ B64.deliver r = Finite r.
Proof.
  intros Hgt. unfold B64.deliver, B64.positive.
  pose proof underflow_threshold_below.
  rewrite Rabs_pos_eq by lra.
  destruct (Rle_dec B64.overflow_threshold r).
  - left. destruct (Rlt_dec 0 r); [reflexivity | lra].
  - right. destruct (Rle_dec r B64.underflow_threshold); [lra | reflexivity].
Qed.

(** Both orders of two distinct positive axes give the delivered
    quotient of the smaller by the larger. *)
Lemma b64_alpha_of_ordered (x y : R) :
  0 < x -> x < y ->
  exists v : R,
    B64.alpha_of x y = B64.ret (Finite v)
    /\ B64.alpha_of y x = B64.ret (Finite v)
    /\ 0 <= v < 1
    /\ (normal (x / y) -> v = x / y).
Proof.
  intros Hx Hxy.
  pose proof (ratio_lt_1 x y Hx Hxy) as [Hlo0 Hlo1].
  pose proof (ratio_gt_1 x y Hx Hxy) as Hhi.
  destruct (deliver_below_one (x / y) Hlo0 Hlo1) as (v & Hv & Hrange & Hexact).
  exists v. unfold B64.alpha_of.
  rewrite !pydiv_finite by lra. cbn [B64.bind B64.ret]. rewrite Hv.
  split; [| split; [| split; assumption]].
  - destruct (deliver_above_one (y / x) Hhi) as [-> | ->];
      unfold B64.pymin, B64.xlt; [reflexivity |].
    destruct (Rlt_dec (y / x) v); [lra | reflexivity].
  - destruct (deliver_above_one (y / x) Hhi) as [-> | ->];
      unfold B64.pymin, B64.xlt; [reflexivity |].
    destruct (Rlt_dec v (y / x)); [reflexivity | lra].
Qed.

(** The axis ratio of positive axes, equal or not, whose quotient is
    inside the range. *)
Lemma b64_alpha_of_run (x y : R) :
  0 < x -> 0 < y -> normal (x / y) ->
  B64.alpha_of x y = B64.ret (Finite (Rmin (x / y) (y / x))).
Proof.
  intros Hx Hy Hn.
  assert (Hn' : normal (y / x)).
  { replace (y / x) with (/ (x / y)) by (field; lra). now apply normal_inv. }
  unfold B64.alpha_of.
  rewrite !pydiv_normal by (assumption || lra). cbn [B64.bind B64.ret].
  unfold B64.pymin, B64.xlt, Rmin.
  destruct (Rlt_dec (y / x) (x / y)), (Rle_dec (x / y) (y / x));
    try reflexivity; lra.
Qed.

(** C6, as amended.  For distinct positive axes the ratio
    [alpha = min(aPlt/aTest, aTest/aPlt)] is computed without error, lies
    in the interval from 0 (included) to 1 (excluded), and is the same
    when the two axes are swapped; it is the exact smaller-over-larger
    quotient, hence strictly positive, whenever [aPlt/aTest] has a
    magnitude between 1e-300 and 1e300. *)
Theorem b64_alpha_in_unit_interval_symmetric (aPlt aTest : R) :
  0 < aPlt -> 0 < aTest -> aPlt <> aTest ->
  exists alpha : R,
    B64.returns (B64.alpha_of aPlt aTest) (Finite alpha)
    /\ 0 <= alpha < 1
    /\ B64.returns (B64.alpha_of aTest aPlt) (Finite alpha)
    /\ (normal (aPlt / aTest) ->
        alpha = Rmin (aPlt / aTest) (aTest / aPlt) /\ 0 < alpha).
Proof.
  intros HP HT Hne. unfold B64.returns.
  destruct (Rlt_dec aPlt aTest) as [Hlt | Hge].
  - destruct (b64_alpha_of_ordered aPlt aTest HP Hlt)
      as (v & H1 & H2 & Hrange & Hexact).
    exists v. repeat split; try assumption; try lra.
    + rewrite Rmin_ratio_below by assumption. now apply Hexact.
    + rewrite (Hexact H). apply Rdiv_lt_0_compat; lra.
  - assert (Hgt : aTest < aPlt) by lra.
    destruct (b64_alpha_of_ordered aTest aPlt HT Hgt)
      as (v & H1 & H2 & Hrange & Hexact).
    assert (Hinv : normal (aPlt / aTest) -> normal (aTest / aPlt)).
    { intros Hn. replace (aTest / aPlt) with (/ (aPlt / aTest))
        by (field; lra). now apply normal_inv. }
    exists v. repeat split; try assumption; try lra.
    + rewrite Rmin_ratio_above by assumption. apply Hexact. now apply Hinv.
    + rewrite (Hexact (Hinv H)). apply Rdiv_lt_0_compat; lra.
Qed.

(** The claim C6 fails without the range: for the distinct positive
    axes 1e-200 and 1e200 the smaller quotient underflows and [alpha] is
    exactly zero, not strictly inside the unit interval. *)
Lemma alpha_in_unit_interval_counterexample :
  0 < 1e-200 /\ 0 < 1e200 /\ 1e-200 <> 1e200
  /\ B64.returns (B64.alpha_of 1e-200 1e200) (Finite 0)
  /\ ~ (0 < 0 < 1).
Proof.
  split; [lra |]. split; [lra |]. split; [lra |]. split; [| lra].
  unfold B64.returns, B64.alpha_of.
  rewrite !pydiv_finite by lra. cbn [B64.bind B64.ret].
  rewrite (deliver_tiny (1e-200 / 1e200))
    by (rewrite Rabs_pos_eq by lra; lra).
  rewrite (deliver_huge (1e200 / 1e-200)) by lra.
  reflexivity.
Qed.

(** ** The diffusion timescale within the range *)

Lemma Rmin_ratio_normal (x y : R) :
  0 < x -> 0 < y -> normal (x / y) -> normal (Rmin (x / y) (y / x)).
Proof.
  intros Hx Hy Hn. unfold Rmin.
  destruct (Rle_dec (x / y) (y / x)); [exact Hn |].
  replace (y / x) with (/ (x / y)) by (field; lra). now apply normal_inv.
Qed.

Lemma normal_Rpower_half (r : R) :
  0 < r -> normal r -> normal (Rpower r 0.5).
Proof.
  intros Hr Hn. rewrite Rpower_half by exact Hr.
  rewrite <- (Rabs_pos_eq r) by lra. now apply normal_sqrt.
Qed.

Lemma normal_hundredth_period (a m : R) :
  orbital_in_range a m -> normal (0.01 * (2 * PI / mean_motion a m)).
Proof.
  intros Hr. pose proof (period_in_range a m Hr). apply normal_of_pos. lra.
Qed.

Lemma normal_four_periods (a m : R) :
  orbital_in_range a m -> normal (4 * (2 * PI / mean_motion a m)).
Proof.
  intros Hr. pose proof (period_in_range a m Hr). apply normal_of_pos. lra.
Qed.

Lemma Rpower_minus_2_inv (x : R) : 0 < x -> Rpower x (-2) = / x ^ 2.
Proof.
  intros Hx. replace (-2) with (- INR 2) by (simpl; lra).
  now rewrite Rpower_Ropp, Rpower_pow.
Qed.

(** The first steps both timescale functions share once the planet has
    a mass: the planet mass in Solar masses. *)
Lemma planet_mass_in_range (mPlt : R) :
  normal (mPlt * 9.55e-4) ->
  B64.xmul (Finite mPlt) (Finite mJup_mSun) = Finite (mPlt * 9.55e-4).
Proof. intros H. unfold mJup_mSun. now apply xmul_normal. Qed.

(** Every run of [GetDiffusionTimescale_yr] whose intermediate results
    stay inside the range. *)
Lemma b64_diffusion_run (mStar mPlt aPlt aTest : R) :
  0 < mStar -> 0 < mPlt -> 0 < aPlt -> 0 < aTest ->
  diffusion_in_range mStar mPlt aPlt aTest ->
  B64.GetDiffusionTimescale_yr mStar mPlt aPlt aTest
  = B64.ret (Finite (0.01 * (2 * PI / mean_motion aPlt mStar)
                     * Rpower (Rmin (aPlt / aTest) (aTest / aPlt)) 0.5
                     * Rpower (mPlt * 9.55e-4 / mStar) (-2))).
Proof.
  intros HS HM HP HT (Horb & Hratio & (Hms & Hmu) & Hw & Hprod & Hfinal).
  pose proof (Rmin_ratio_pos aPlt aTest HP HT) as Halpha.
  pose proof (Rmin_ratio_normal aPlt aTest HP HT Hratio) as Hnalpha.
  pose proof (mass_ratio_pos mStar mPlt HS HM) as Hmupos.
  unfold B64.GetDiffusionTimescale_yr.
  destruct (Req_dec_T mPlt 0); [lra |].
  rewrite planet_mass_in_range by exact Hms.
  rewrite b64_alpha_of_run by assumption. cbn [B64.bind B64.ret].
  rewrite b64_orbital_period_run by (assumption || lra).
  cbn [B64.bind B64.ret].
  rewrite pypow_normal by (try apply normal_Rpower_half; assumption || lra).
  cbn [B64.bind B64.ret].
  rewrite pydiv_normal by (assumption || lra). cbn [B64.bind B64.ret].
  rewrite pypow_normal by (assumption || lra). cbn [B64.bind B64.ret].
  rewrite (xmul_normal 0.01) by (now apply normal_hundredth_period).
  rewrite xmul_normal by exact Hprod.
  rewrite xmul_normal by exact Hfinal.
  reflexivity.
Qed.

(** The power of a mass ratio too small to be squared and inverted:
    line 99 raises [OverflowError]. *)
Lemma diffusion_mass_power_overflow (mStar mPlt aPlt aTest : R) :
  0 < mStar -> 0 < mPlt -> 0 < aPlt -> 0 < aTest ->
  orbital_in_range aPlt mStar -> normal (aPlt / aTest) ->
  mass_ratio_in_range mStar mPlt ->
  1e309 <= Rpower (mPlt * 9.55e-4 / mStar) (-2) ->
  B64.GetDiffusionTimescale_yr mStar mPlt aPlt aTest
  = B64.raise B64.OverflowError.
Proof.
  intros HS HM HP HT Horb Hratio (Hms & Hmu) Hbig.
  pose proof (Rmin_ratio_pos aPlt aTest HP HT) as Halpha.
  pose proof (Rmin_ratio_normal aPlt aTest HP HT Hratio) as Hnalpha.
  pose proof (mass_ratio_pos mStar mPlt HS HM) as Hmupos.
  unfold B64.GetDiffusionTimescale_yr.
  destruct (Req_dec_T mPlt 0); [lra |].
  rewrite planet_mass_in_range by exact Hms.
  rewrite b64_alpha_of_run by assumption. cbn [B64.bind B64.ret].
  rewrite b64_orbital_period_run by (assumption || lra).
  cbn [B64.bind B64.ret].
  rewrite pypow_normal by (try apply normal_Rpower_half; assumption || lra).
  cbn [B64.bind B64.ret].
  rewrite pydiv_normal by (assumption || lra). cbn [B64.bind B64.ret].
  rewrite pypow_positive by (assumption || lra).
  unfold B64.pow_finish. pose proof overflow_threshold_below.
  destruct (Rle_dec B64.overflow_threshold _); [reflexivity | lra].
Qed.

(** C3, as amended.  For positive masses and positive axes, equal or
    not, such that every intermediate result has a magnitude between
    1e-300 and 1e300, [GetDiffusionTimescale_yr] returns
    [0.01 * T * alpha^0.5 * (mPlt*9.55e-4/mStar)^(-2)], where [T] is what
    [GetOrbitalPeriod_yr(aPlt, mStar)] returns and
    [alpha = min(aPlt/aTest, aTest/aPlt)]; one expression serves both
    geometries. *)
Theorem b64_diffusion_formula (mStar mPlt aPlt aTest T : R) :
  0 < mStar -> 0 < mPlt -> 0 < aPlt -> 0 < aTest ->
  diffusion_in_range mStar mPlt aPlt aTest ->
  B64.returns (B64.GetOrbitalPeriod_yr aPlt mStar) (Finite T) ->
  B64.returns (B64.GetDiffusionTimescale_yr mStar mPlt aPlt aTest)
              (Finite (0.01 * T
                       * Rpower (Rmin (aPlt / aTest) (aTest / aPlt)) 0.5
                       * Rpower (mPlt * 9.55e-4 / mStar) (-2))).
Proof.
  intros HS HM HP HT Hr HTret. unfold B64.returns in *.
  pose proof Hr as (Horb & _).
  rewrite b64_orbital_period_run in HTret by (assumption || lra).
  injection HTret as <-.
  now apply b64_diffusion_run.
Qed.

(** ** The orbit of one astronomical unit around one solar mass *)

Lemma mean_motion_unit : mean_motion 1 1 = 2 * PI.
Proof.
  unfold mean_motion. pose proof PI_RGT_0.
  replace (4 * PI ^ 2 * 1 / 1 ^ 3) with ((2 * PI) * (2 * PI)) by field.
  rewrite Rabs_pos_eq by nra. apply sqrt_square. lra.
Qed.

Lemma unit_period : 2 * PI / mean_motion 1 1 = 1.
Proof. rewrite mean_motion_unit. pose proof PI_RGT_0. field. lra. Qed.

Lemma orbital_in_range_unit : orbital_in_range 1 1.
Proof.
  pose proof PI_sq_bounds. unfold orbital_in_range.
  repeat split; apply normal_of_pos; lra.
Qed.

Lemma normal_quarter : normal (1 / 4).
Proof. apply normal_of_pos. lra. Qed.

Lemma alpha_quarter : Rmin (1 / 4) (4 / 1) = 1 / 4.
Proof. apply Rmin_left. lra. Qed.

Lemma Rpower_quarter_half : Rpower (1 / 4) 0.5 = 1 / 2.
Proof.
  rewrite Rpower_half by lra.
  replace (1 / 4) with ((1 / 2) * (1 / 2)) by lra.
  apply sqrt_square. lra.
Qed.

(** The claim C3 fails without the range: for a planet of [1e-197]
    Jupiter masses the mass ratio is about [1e-200], its power [-2]
    overflows, and line 99 raises [OverflowError]. *)
Lemma diffusion_formula_counterexample :
  0 < 1 /\ 0 < 1e-197 /\ 0 < 4
  /\ B64.raises (B64.GetDiffusionTimescale_yr 1 1e-197 1 4) B64.OverflowError
  /\ ~ (exists d : xfloat,
          B64.returns (B64.GetDiffusionTimescale_yr 1 1e-197 1 4) d).
Proof.
  assert (H : B64.GetDiffusionTimescale_yr 1 1e-197 1 4
              = B64.raise B64.OverflowError).
  { apply diffusion_mass_power_overflow; try lra.
    - exact orbital_in_range_unit.
    - exact normal_quarter.
    - split; apply normal_of_pos; lra.
    - rewrite Rpower_minus_2_inv by lra. lra. }
  split; [lra |]. split; [lra |]. split; [lra |].
  unfold B64.raises, B64.returns. rewrite H.
  split; [reflexivity |]. intros [d Hd]. discriminate.
Qed.

(** ** The secular timescale within the range *)

Section B64Secular.

Variable quad : (R -> B64.E xfloat) -> R -> R -> B64.E xfloat.

Lemma normal_inv_pi : normal (1 / PI).
Proof.
  pose proof PI_gt_3. pose proof PI_4.
  replace (1 / PI) with (/ PI) by (field; lra).
  apply normal_inv. apply normal_of_pos. lra.
Qed.

(** [GetLaplaceCoefficient] hands on what the quadrature gives: its
    exception, or its value times [1/pi]. *)
Lemma b64_laplace_coefficient_run (j s : R) (alpha : xfloat) :
  B64.GetLaplaceCoefficient quad j s alpha
  = B64.bind (quad (B64.laplaceCoefficientIntegrand j s alpha) 0 (2 * PI))
             (fun integral => B64.ret (B64.xmul (Finite (1 / PI)) integral)).
Proof.
  unfold B64.GetLaplaceCoefficient, np_pi.
  rewrite pydiv_normal by (try apply normal_inv_pi; apply PI_neq0).
  reflexivity.
Qed.

(** Every run of [GetSecularTimescale_yr] for a massive planet whose
    first results stay inside the range, up to the branch on the
    geometry. *)
Lemma b64_secular_run (mStar mPlt aPlt aTest : R) (B : xfloat) :
  0 < mStar -> 0 < mPlt -> 0 < aPlt -> 0 < aTest ->
  orbital_in_range aPlt mStar -> normal (aPlt / aTest) ->
  mass_ratio_in_range mStar mPlt ->
  B64.returns (B64.GetLaplaceCoefficient quad 1 1.5
                 (Finite (Rmin (aPlt / aTest) (aTest / aPlt)))) B ->
  B64.GetSecularTimescale_yr quad mStar mPlt aPlt aTest
  = B64.bind
      (B64.pydiv (Finite (4 * (2 * PI / mean_motion aPlt mStar)))
                 (Finite (mPlt * 9.55e-4 / mStar)))
      (fun t =>
         B64.bind
           (B64.pypow (Finite (Rmin (aPlt / aTest) (aTest / aPlt)))
                      (if Rle_dec aPlt aTest then -2.5 else -0.5))
           (fun p => B64.pydiv (B64.xmul t p) B)).
Proof.
  intros HS HM HP HT Horb Hratio (Hms & Hmu) HB. unfold B64.returns in HB.
  unfold B64.GetSecularTimescale_yr.
  destruct (Req_dec_T mPlt 0); [lra |].
  rewrite planet_mass_in_range by exact Hms.
  rewrite pydiv_normal by (assumption || lra). cbn [B64.bind B64.ret].
  rewrite b64_alpha_of_run by assumption. cbn [B64.bind B64.ret].
  rewrite b64_orbital_period_run by (assumption || lra).
  cbn [B64.bind B64.ret]. rewrite HB. cbn [B64.bind].
  rewrite (xmul_normal 4) by (now apply normal_four_periods).
  destruct (Rle_dec aPlt aTest); reflexivity.
Qed.

(** C1, as amended.  For positive masses and distinct positive axes such
    that every intermediate result has a magnitude between 1e-300 and
    1e300, with [T] what [GetOrbitalPeriod_yr(aPlt, mStar)] returns and
    [b] the nonzero finite value [GetLaplaceCoefficient(1, 1.5, alpha)]
    returns at [alpha = min(aPlt/aTest, aTest/aPlt)],
    [GetSecularTimescale_yr] returns
    [4*T / (mPlt*9.55e-4/mStar) * alpha^(-2.5) / b] when [aPlt <= aTest]
    and the same with exponent [-0.5] when [aPlt > aTest]. *)
Theorem b64_secular_formula (mStar mPlt aPlt aTest T b : R) :
  0 < mStar -> 0 < mPlt -> 0 < aPlt -> 0 < aTest -> aPlt <> aTest ->
  secular_in_range mStar mPlt aPlt aTest b ->
  B64.returns (B64.GetOrbitalPeriod_yr aPlt mStar) (Finite T) ->
  B64.returns (B64.GetLaplaceCoefficient quad 1 1.5
                 (Finite (Rmin (aPlt / aTest) (aTest / aPlt)))) (Finite b) ->
  b <> 0 ->
  (aPlt <= aTest ->
   B64.returns (B64.GetSecularTimescale_yr quad mStar mPlt aPlt aTest)
               (Finite (4 * T / (mPlt * 9.55e-4 / mStar)
                        * Rpower (Rmin (aPlt / aTest) (aTest / aPlt)) (-2.5)
                        / b)))
  /\ (aPlt > aTest ->
      B64.returns (B64.GetSecularTimescale_yr quad mStar mPlt aPlt aTest)
                  (Finite (4 * T / (mPlt * 9.55e-4 / mStar)
                           * Rpower (Rmin (aPlt / aTest) (aTest / aPlt)) (-0.5)
                           / b))).
Proof.
  intros HS HM HP HT _ Hr HTret Hbret Hb.
  destruct Hr as (Horb & Hratio & Hmass & Ht & Hp & Htp & Hfinal).
  pose proof (Rmin_ratio_pos aPlt aTest HP HT) as Halpha.
  pose proof (mass_ratio_pos mStar mPlt HS HM) as Hmu.
  unfold B64.returns in HTret.
  rewrite b64_orbital_period_run in HTret by (assumption || lra).
  injection HTret as <-.
  unfold B64.returns.
  rewrite (b64_secular_run mStar mPlt aPlt aTest (Finite b)) by assumption.
  rewrite pydiv_normal by (assumption || lra). cbn [B64.bind B64.ret].
  assert (He : (if Rle_dec aPlt aTest then -2.5 else -0.5) <> 0)
    by (destruct (Rle_dec aPlt aTest); lra).
  rewrite pypow_normal by assumption. cbn [B64.bind B64.ret].
  rewrite xmul_normal by exact Htp.
  rewrite pydiv_normal by assumption.
  split; intros Hgeo; destruct (Rle_dec aPlt aTest); try lra; reflexivity.
Qed.

(** A planet mass that underflows once converted to Solar masses: the
    guard lets it through and the division by the mass ratio on line 72
    or 76 raises, whatever the Laplace coefficient is. *)
Lemma secular_planet_mass_underflow (mStar mPlt aPlt aTest : R) (B : xfloat) :
  0 < mStar -> 0 < mPlt -> 0 < aPlt -> 0 < aTest ->
  orbital_in_range aPlt mStar -> normal (aPlt / aTest) ->
  mPlt * 9.55e-4 <= 1e-324 ->
  B64.returns (B64.GetLaplaceCoefficient quad 1 1.5
                 (Finite (Rmin (aPlt / aTest) (aTest / aPlt)))) B ->
  B64.GetSecularTimescale_yr quad mStar mPlt aPlt aTest
  = B64.raise B64.ZeroDivisionError.
Proof.
  intros HS HM HP HT Horb Hratio Hsmall HB. unfold B64.returns in HB.
  unfold B64.GetSecularTimescale_yr.
  destruct (Req_dec_T mPlt 0); [lra |].
  assert (Hms : B64.xmul (Finite mPlt) (Finite mJup_mSun) = Finite 0).
  { unfold mJup_mSun. cbn. apply deliver_tiny.
    rewrite Rabs_pos_eq by nra. exact Hsmall. }
  rewrite Hms, pydiv_finite by lra.
  replace (0 / mStar) with 0 by (field; lra).
  rewrite deliver_zero. cbn [B64.bind B64.ret].
  rewrite b64_alpha_of_run by assumption. cbn [B64.bind B64.ret].
  rewrite b64_orbital_period_run by (assumption || lra).
  cbn [B64.bind B64.ret]. rewrite HB. cbn [B64.bind].
  destruct (Rle_dec aPlt aTest); now rewrite pydiv_by_zero.
Qed.

End B64Secular.

Lemma constant_rule_laplace (v : R) (j s : R) (alpha : xfloat) :
  normal (1 / PI * v) ->
  B64.returns (B64.GetLaplaceCoefficient (B64.constant_rule (Finite v)) j s alpha)
              (Finite (1 / PI * v)).
Proof.
  intros Hn. unfold B64.returns.
  rewrite b64_laplace_coefficient_run. unfold B64.constant_rule.
  cbn [B64.bind B64.ret]. now rewrite xmul_normal.
Qed.

Lemma normal_inv_pi_unit : normal (1 / PI * 1).
Proof. rewrite Rmult_1_r. apply normal_inv_pi. Qed.

(** The claim C1 fails without the range: a planet of [1e-322] Jupiter
    masses passes the zero-mass guard, its mass in Solar masses
    underflows to zero, and line 72 raises [ZeroDivisionError]. *)
Lemma secular_formula_counterexample :
  0 < 1 /\ 0 < 1e-322 /\ 0 < 4 /\ 1 <> 4
  /\ B64.raises (B64.GetSecularTimescale_yr
                   (B64.constant_rule (Finite 1)) 1 1e-322 1 4)
                B64.ZeroDivisionError
  /\ ~ (exists s : xfloat,
          B64.returns (B64.GetSecularTimescale_yr
                         (B64.constant_rule (Finite 1)) 1 1e-322 1 4) s).
Proof.
  assert (H : B64.GetSecularTimescale_yr
                (B64.constant_rule (Finite 1)) 1 1e-322 1 4
              = B64.raise B64.ZeroDivisionError).
  { apply (secular_planet_mass_underflow _ 1 1e-322 1 4
             (Finite (1 / PI * 1))); try lra.
    - exact orbital_in_range_unit.
    - exact normal_quarter.
    - apply constant_rule_laplace. exact normal_inv_pi_unit. }
  split; [lra |]. split; [lra |]. split; [lra |]. split; [lra |].
  unfold B64.raises, B64.returns. rewrite H.
  split; [reflexivity |]. intros [s Hs]. discriminate.
Qed.

(** ** The amended statements on concrete inputs *)


Lemma orbital_in_range_negative_mass : orbital_in_range 1 (-1).
Proof.
  pose proof PI_sq_bounds. unfold orbital_in_range.
  split; [apply normal_of_pos; lra |].
  split.
  - replace (4 * PI ^ 2 * -1) with (- (4 * PI ^ 2)) by ring.
    apply normal_opp, normal_of_pos. lra.
  - replace (4 * PI ^ 2 * -1 / 1 ^ 3) with (- (4 * PI ^ 2)) by field.
    apply normal_opp, normal_of_pos. lra.
Qed.

Lemma Rpower_quarter_inverse : Rpower (1 / 4) (-2.5) = 32.
Proof.
  replace (1 / 4) with (Rpower 2 (-2))
    by (rewrite Rpower_minus_2_inv by lra; lra).
  rewrite Rpower_mult.
  replace (-2 * -2.5) with (INR 5) by (simpl; lra).
  rewrite Rpower_nat by lra. lra.
Qed.

Lemma diffusion_in_range_example : diffusion_in_range 1 1 1 4.
Proof.
  unfold diffusion_in_range, mass_ratio_in_range. cbv zeta.
  rewrite unit_period, alpha_quarter, Rpower_quarter_half.
  rewrite Rpower_minus_2_inv by lra.
  split; [exact orbital_in_range_unit |].
  repeat split; apply normal_of_pos; lra.
Qed.

Lemma secular_in_range_example : secular_in_range 1 1 1 4 (1 / PI * 1).
Proof.
  unfold secular_in_range, mass_ratio_in_range. cbv zeta.
  rewrite unit_period, alpha_quarter.
  destruct (Rle_dec 1 4); [| lra].
  rewrite Rpower_quarter_inverse.
  pose proof PI_gt_3. pose proof PI_4.
  replace (4 * 1 / (1 * 9.55e-4 / 1) * 32 / (1 / PI * 1))
    with (4 * 1 / (1 * 9.55e-4 / 1) * 32 * PI) by (field; lra).
  split; [exact orbital_in_range_unit |].
  repeat split; apply normal_of_pos; lra.
Qed.

Lemma unit_period_run :
  B64.returns (B64.GetOrbitalPeriod_yr 1 1)
              (Finite (2 * PI / mean_motion 1 1)).
Proof.
  unfold B64.returns. apply b64_orbital_period_run; [lra |].
  exact orbital_in_range_unit.
Qed.

Lemma b64_orbital_period_kepler_witness :
  B64.returns (B64.GetOrbitalPeriod_yr 1 1)
              (Finite (2 * PI / sqrt (4 * PI ^ 2 * 1 / 1 ^ 3)))
  /\ 0 < 2 * PI / sqrt (4 * PI ^ 2 * 1 / 1 ^ 3).
Proof.
  apply (b64_orbital_period_kepler 1 1); try lra.
  exact orbital_in_range_unit.
Defined.


Lemma b64_orbital_period_abs_radicand_witness :
  exists T : R,
    B64.returns (B64.GetOrbitalPeriod_yr 1 (-1)) (Finite T)
    /\ T = 2 * PI / sqrt (Rabs (4 * PI ^ 2 * (-1) / 1 ^ 3))
    /\ 0 < T
    /\ B64.returns (B64.GetOrbitalPeriod_yr 1 (Rabs (-1))) (Finite T).
Proof.
  apply (proj1 (b64_orbital_period_abs_radicand 1 (-1))); try lra.
  exact orbital_in_range_negative_mass.
Defined.

Lemma b64_alpha_in_unit_interval_symmetric_witness :
  exists alpha : R,
    B64.returns (B64.alpha_of 5.2 6) (Finite alpha)
    /\ 0 <= alpha < 1
    /\ B64.returns (B64.alpha_of 6 5.2) (Finite alpha)
    /\ (normal (5.2 / 6) ->
        alpha = Rmin (5.2 / 6) (6 / 5.2) /\ 0 < alpha).
Proof. apply (b64_alpha_in_unit_interval_symmetric 5.2 6); lra. Defined.

Lemma b64_diffusion_formula_witness :
  B64.returns (B64.GetDiffusionTimescale_yr 1 1 1 4)
              (Finite (0.01 * (2 * PI / mean_motion 1 1)
                       * Rpower (Rmin (1 / 4) (4 / 1)) 0.5
                       * Rpower (1 * 9.55e-4 / 1) (-2))).
Proof.
  apply (b64_diffusion_formula 1 1 1 4 (2 * PI / mean_motion 1 1)); try lra.
  - exact diffusion_in_range_example.
  - exact unit_period_run.
Defined.

Lemma b64_secular_formula_witness :
  B64.returns (B64.GetSecularTimescale_yr (B64.constant_rule (Finite 1))
                 1 1 1 4)
              (Finite (4 * (2 * PI / mean_motion 1 1) / (1 * 9.55e-4 / 1)
                       * Rpower (Rmin (1 / 4) (4 / 1)) (-2.5)
                       / (1 / PI * 1))).
Proof.
  apply (proj1 (b64_secular_formula (B64.constant_rule (Finite 1))
                  1 1 1 4 (2 * PI / mean_motion 1 1) (1 / PI * 1)
                  ltac:(lra) ltac:(lra) ltac:(lra) ltac:(lra) ltac:(lra)
                  secular_in_range_example
                  unit_period_run
                  (constant_rule_laplace 1 1 1.5 _ normal_inv_pi_unit)
                  (normal_nonzero _ normal_inv_pi_unit))).
  lra.
Defined.

(** ** Beyond the range: what overflow and underflow do *)

(** X25.  A semimajor axis so small that its cube underflows makes
    [GetOrbitalPeriod_yr] raise [ZeroDivisionError], although the axis
    is not zero, whatever the stellar mass is. *)
Theorem b64_orbital_period_underflow_raises (a mStar : R) :
  0 < a -> a ^ 3 <= 1e-330 ->
  B64.raises (B64.GetOrbitalPeriod_yr a mStar) B64.ZeroDivisionError.
Proof.
  intros Ha Hsmall. unfold B64.raises.
  apply orbital_period_cube_underflow; lra.
Qed.

(** X26.  A semimajor axis so large that its cube overflows makes
    [GetOrbitalPeriod_yr] raise [OverflowError], whatever the stellar
    mass is. *)
Theorem b64_orbital_period_overflow_raises (a mStar : R) :
  0 < a -> 1e310 <= a ^ 3 ->
  B64.raises (B64.GetOrbitalPeriod_yr a mStar) B64.OverflowError.
Proof.
  intros Ha Hbig. unfold B64.raises.
  apply orbital_period_cube_overflow; lra.
Qed.

(** X27.  A stellar mass so large that [4*pi**2*mStar] overflows gives
    an infinite mean motion and a period of exactly zero, returned
    without any exception. *)
Theorem b64_orbital_period_heavy_star (a mStar : R) :
  0 < a -> normal (a ^ 3) -> 1e309 <= 4 * PI ^ 2 * mStar ->
  B64.returns (B64.GetOrbitalPeriod_yr a mStar) (Finite 0).
Proof.
  intros Ha Ha3 Hbig. pose proof PI_sq_bounds as Hpi2.
  unfold B64.returns, B64.GetOrbitalPeriod_yr.
  rewrite pypow_pi_squared. cbn [B64.bind B64.ret].
  rewrite pypow_cube by (assumption || lra). cbn [B64.bind B64.ret].
  rewrite (xmul_normal 4 (PI ^ 2)) by (apply normal_of_pos; lra).
  assert (Hinf : B64.xmul (Finite (4 * PI ^ 2)) (Finite mStar) = PInf).
  { cbn. apply deliver_huge. lra. }
  rewrite Hinf.
  assert (Hpos : 0 < a ^ 3) by (apply pow_lt; exact Ha).
  unfold B64.pydiv at 1. unfold B64.is_zero.
  destruct (Req_dec_T (a ^ 3) 0); [lra |].
  cbn [B64.bind B64.ret B64.xquot]. unfold B64.positive.
  destruct (Rlt_dec 0 (a ^ 3)); [| lra].
  cbn [B64.signed_inf B64.xabs].
  unfold B64.pypow.
  destruct (Req_dec_T 0.5 0); [lra |].
  destruct (Rlt_dec 0 0.5); [| lra].
  cbn [B64.bind B64.ret].
  unfold B64.pydiv, B64.is_zero. unfold np_pi.
  pose proof PI_gt_3. pose proof PI_4.
  rewrite (xmul_normal 2 PI) by (apply normal_of_pos; lra).
  reflexivity.
Qed.

(** X28.  Two positive axes whose quotient underflows give
    [alpha = 0.0] in either order: the smaller quotient is delivered as
    zero and the larger as an infinity. *)
Theorem b64_alpha_underflow (x y : R) :
  0 < x -> 0 < y -> x / y <= 1e-330 ->
  B64.returns (B64.alpha_of x y) (Finite 0)
  /\ B64.returns (B64.alpha_of y x) (Finite 0).
Proof.
  intros Hx Hy Hsmall.
  assert (Hlo : 0 < x / y) by (apply Rdiv_lt_0_compat; assumption).
  assert (Hhi : 1e330 <= y / x).
  { replace (y / x) with (/ (x / y)) by (field; lra).
    replace 1e330 with (/ 1e-330) by lra.
    apply Rinv_le_contravar; lra. }
  unfold B64.returns, B64.alpha_of.
  rewrite !pydiv_finite by lra. cbn [B64.bind B64.ret].
  rewrite (deliver_tiny (x / y)) by (rewrite Rabs_pos_eq by lra; lra).
  rewrite (deliver_huge (y / x)) by lra.
  split; reflexivity.
Qed.

(** X29.  A planet mass that is not zero but underflows once multiplied
    by [9.55e-4] passes the zero-mass guard of
    [GetDiffusionTimescale_yr]; the mass ratio is then zero and its
    power [-2] raises [ZeroDivisionError]. *)
Theorem b64_diffusion_tiny_planet_raises (mStar mPlt aPlt aTest : R) :
  0 < mStar -> 0 < mPlt -> 0 < aPlt -> 0 < aTest ->
  orbital_in_range aPlt mStar -> normal (aPlt / aTest) ->
  mPlt * 9.55e-4 <= 1e-324 ->
  B64.raises (B64.GetDiffusionTimescale_yr mStar mPlt aPlt aTest)
             B64.ZeroDivisionError.
Proof.
  intros HS HM HP HT Horb Hratio Hsmall.
  pose proof (Rmin_ratio_pos aPlt aTest HP HT) as Halpha.
  pose proof (Rmin_ratio_normal aPlt aTest HP HT Hratio) as Hnalpha.
  unfold B64.raises, B64.GetDiffusionTimescale_yr.
  destruct (Req_dec_T mPlt 0); [lra |].
  assert (Hms : B64.xmul (Finite mPlt) (Finite mJup_mSun) = Finite 0).
  { unfold mJup_mSun. cbn. apply deliver_tiny.
    rewrite Rabs_pos_eq by nra. lra. }
  rewrite Hms.
  rewrite b64_alpha_of_run by assumption. cbn [B64.bind B64.ret].
  rewrite b64_orbital_period_run by (assumption || lra).
  cbn [B64.bind B64.ret].
  rewrite pypow_normal by (try apply normal_Rpower_half; assumption || lra).
  cbn [B64.bind B64.ret].
  rewrite pydiv_finite by lra.
  replace (0 / mStar) with 0 by (field; lra).
  rewrite deliver_zero. cbn [B64.bind B64.ret].
  unfold B64.pypow.
  destruct (Req_dec_T (-2) 0); [lra |].
  destruct (Req_dec_T 0 0); [| contradiction].
  destruct (Rlt_dec (-2) 0); [reflexivity | lra].
Qed.

(** X30.  Inside the range the diffusion time is finite and strictly
    positive. *)
Theorem b64_diffusion_positive (mStar mPlt aPlt aTest : R) :
  0 < mStar -> 0 < mPlt -> 0 < aPlt -> 0 < aTest ->
  diffusion_in_range mStar mPlt aPlt aTest ->
  exists d : R,
    B64.returns (B64.GetDiffusionTimescale_yr mStar mPlt aPlt aTest)
                (Finite d)
    /\ 0 < d.
Proof.
  intros HS HM HP HT Hr. unfold B64.returns.
  rewrite b64_diffusion_run by assumption.
  eexists. split; [reflexivity |].
  destruct Hr as (Horb & _).
  pose proof (period_in_range aPlt mStar Horb) as HTr.
  apply Rmult_lt_0_compat; [| unfold Rpower; apply exp_pos].
  apply Rmult_lt_0_compat; [| unfold Rpower; apply exp_pos].
  lra.
Qed.

Lemma orbital_in_range_opp_axis (a m : R) :
  orbital_in_range a m -> orbital_in_range (- a) m.
Proof.
  intros (Ha3 & Hm & Hq).
  assert (Ha : a <> 0).
  { intros ->. apply normal_nonzero in Ha3. apply Ha3. ring. }
  unfold orbital_in_range.
  replace ((- a) ^ 3) with (- a ^ 3) by ring.
  replace (4 * PI ^ 2 * m / - a ^ 3) with (- (4 * PI ^ 2 * m / a ^ 3))
    by (field; exact Ha).
  split; [| split]; try apply normal_opp; assumption.
Qed.

(** X31.  Inside the range the sign of the semimajor axis is lost in
    the absolute value: [a] and [-a] give the same period. *)
Theorem b64_orbital_period_axis_sign (a mStar : R) :
  a <> 0 -> orbital_in_range a mStar ->
  exists T : R,
    B64.returns (B64.GetOrbitalPeriod_yr a mStar) (Finite T)
    /\ B64.returns (B64.GetOrbitalPeriod_yr (- a) mStar) (Finite T).
Proof.
  intros Ha Hr. exists (2 * PI / mean_motion a mStar). unfold B64.returns.
  rewrite !b64_orbital_period_run
    by (try apply orbital_in_range_opp_axis;
        try apply Ropp_neq_0_compat; assumption).
  rewrite mean_motion_opp_axis by exact Ha.
  split; reflexivity.
Qed.

Section B64Edges.

Variable quad : (R -> B64.E xfloat) -> R -> R -> B64.E xfloat.

(** X32.  With every other intermediate result inside the range, a
    Laplace coefficient that comes back exactly zero makes
    [GetSecularTimescale_yr] raise [ZeroDivisionError] at its last
    division, an infinite one makes it return [0.0], and a nan makes it
    return nan. *)
Theorem b64_secular_degenerate_coefficient
    (mStar mPlt aPlt aTest : R) (B : xfloat) :
  0 < mStar -> 0 < mPlt -> 0 < aPlt -> 0 < aTest ->
  orbital_in_range aPlt mStar -> normal (aPlt / aTest) ->
  mass_ratio_in_range mStar mPlt ->
  normal (4 * (2 * PI / mean_motion aPlt mStar) / (mPlt * 9.55e-4 / mStar)) ->
  normal (Rpower (Rmin (aPlt / aTest) (aTest / aPlt))
                 (if Rle_dec aPlt aTest then -2.5 else -0.5)) ->
  normal (4 * (2 * PI / mean_motion aPlt mStar) / (mPlt * 9.55e-4 / mStar)
          * Rpower (Rmin (aPlt / aTest) (aTest / aPlt))
                   (if Rle_dec aPlt aTest then -2.5 else -0.5)) ->
  B64.returns (B64.GetLaplaceCoefficient quad 1 1.5
                 (Finite (Rmin (aPlt / aTest) (aTest / aPlt)))) B ->
  match B with
  | Finite b =>
      b = 0 ->
      B64.raises (B64.GetSecularTimescale_yr quad mStar mPlt aPlt aTest)
                 B64.ZeroDivisionError
  | PInf | NInf =>
      B64.returns (B64.GetSecularTimescale_yr quad mStar mPlt aPlt aTest)
                  (Finite 0)
  | NaN =>
      B64.returns (B64.GetSecularTimescale_yr quad mStar mPlt aPlt aTest) NaN
  end.
Proof.
  intros HS HM HP HT Horb Hratio Hmass Ht Hp Htp HB.
  pose proof (Rmin_ratio_pos aPlt aTest HP HT) as Halpha.
  pose proof (mass_ratio_pos mStar mPlt HS HM) as Hmu.
  assert (He : (if Rle_dec aPlt aTest then -2.5 else -0.5) <> 0)
    by (destruct (Rle_dec aPlt aTest); lra).
  assert (Hrun : B64.GetSecularTimescale_yr quad mStar mPlt aPlt aTest
                 = B64.pydiv
                     (Finite (4 * (2 * PI / mean_motion aPlt mStar)
                              / (mPlt * 9.55e-4 / mStar)
                              * Rpower (Rmin (aPlt / aTest) (aTest / aPlt))
                                  (if Rle_dec aPlt aTest then -2.5 else -0.5)))
                     B).
  { rewrite (b64_secular_run quad mStar mPlt aPlt aTest B) by assumption.
    rewrite pydiv_normal by (assumption || lra). cbn [B64.bind B64.ret].
    rewrite pypow_normal by assumption. cbn [B64.bind B64.ret].
    now rewrite xmul_normal by exact Htp. }
  unfold B64.raises, B64.returns. rewrite Hrun.
  destruct B as [b | | |]; try reflexivity.
  intros ->. apply pydiv_by_zero.
Qed.

(** X33.  Inside the range the secular time has the sign of the Laplace
    coefficient: it is finite, positive for [b > 0] and negative for
    [b < 0]. *)
Theorem b64_secular_sign (mStar mPlt aPlt aTest b : R) :
  0 < mStar -> 0 < mPlt -> 0 < aPlt -> 0 < aTest ->
  secular_in_range mStar mPlt aPlt aTest b ->
  B64.returns (B64.GetLaplaceCoefficient quad 1 1.5
                 (Finite (Rmin (aPlt / aTest) (aTest / aPlt)))) (Finite b) ->
  b <> 0 ->
  exists s : R,
    B64.returns (B64.GetSecularTimescale_yr quad mStar mPlt aPlt aTest)
                (Finite s)
    /\ (0 < b -> 0 < s)
    /\ (b < 0 -> s < 0).
Proof.
  intros HS HM HP HT Hr Hbret Hb.
  destruct Hr as (Horb & Hratio & Hmass & Ht & Hp & Htp & Hfinal).
  pose proof (Rmin_ratio_pos aPlt aTest HP HT) as Halpha.
  pose proof (mass_ratio_pos mStar mPlt HS HM) as Hmu.
  assert (He : (if Rle_dec aPlt aTest then -2.5 else -0.5) <> 0)
    by (destruct (Rle_dec aPlt aTest); lra).
  unfold B64.returns.
  rewrite (b64_secular_run quad mStar mPlt aPlt aTest (Finite b)) by assumption.
  rewrite pydiv_normal by (assumption || lra). cbn [B64.bind B64.ret].
  rewrite pypow_normal by assumption. cbn [B64.bind B64.ret].
  rewrite xmul_normal by exact Htp.
  rewrite pydiv_normal by assumption.
  eexists. split; [reflexivity |].
  pose proof (period_in_range aPlt mStar Horb) as HTr.
  set (e := if Rle_dec aPlt aTest then -2.5 else -0.5) in *.
  assert (Hpp : 0 < Rpower (Rmin (aPlt / aTest) (aTest / aPlt)) e)
    by (unfold Rpower; apply exp_pos).
  assert (HX : 0 < 4 * (2 * PI / mean_motion aPlt mStar)
                   / (mPlt * 9.55e-4 / mStar)
                   * Rpower (Rmin (aPlt / aTest) (aTest / aPlt)) e).
  { apply Rmult_lt_0_compat; [| exact Hpp].
    apply Rdiv_lt_0_compat; [lra | exact Hmu]. }
  split; intros Hsgn.
  - apply Rdiv_lt_0_compat; assumption.
  - unfold Rdiv. pose proof (Rinv_lt_0_compat b Hsgn). nra.
Qed.

End B64Edges.

(** ** The further range properties on concrete inputs *)

Lemma b64_orbital_period_underflow_raises_witness :
  B64.raises (B64.GetOrbitalPeriod_yr 1e-150 1) B64.ZeroDivisionError.
Proof. apply (b64_orbital_period_underflow_raises 1e-150 1); lra. Defined.

Lemma b64_orbital_period_overflow_raises_witness :
  B64.raises (B64.GetOrbitalPeriod_yr 1e200 1) B64.OverflowError.
Proof. apply (b64_orbital_period_overflow_raises 1e200 1); lra. Defined.

Lemma b64_orbital_period_heavy_star_witness :
  B64.returns (B64.GetOrbitalPeriod_yr 1 1e308) (Finite 0).
Proof.
  pose proof PI_sq_bounds.
  apply (b64_orbital_period_heavy_star 1 1e308);
    [lra | apply normal_of_pos; lra | nra].
Defined.

Lemma b64_alpha_underflow_witness :
  B64.returns (B64.alpha_of 1e-200 1e200) (Finite 0)
  /\ B64.returns (B64.alpha_of 1e200 1e-200) (Finite 0).
Proof. apply (b64_alpha_underflow 1e-200 1e200); lra. Defined.

Lemma b64_diffusion_tiny_planet_raises_witness :
  B64.raises (B64.GetDiffusionTimescale_yr 1 1e-322 1 4)
             B64.ZeroDivisionError.
Proof.
  apply (b64_diffusion_tiny_planet_raises 1 1e-322 1 4); try lra.
  - exact orbital_in_range_unit.
  - exact normal_quarter.
Defined.

Lemma b64_diffusion_positive_witness :
  exists d : R,
    B64.returns (B64.GetDiffusionTimescale_yr 1 1 1 4) (Finite d) /\ 0 < d.
Proof.
  apply (b64_diffusion_positive 1 1 1 4); try lra.
  exact diffusion_in_range_example.
Defined.

Lemma b64_orbital_period_axis_sign_witness :
  exists T : R,
    B64.returns (B64.GetOrbitalPeriod_yr 1 1) (Finite T)
    /\ B64.returns (B64.GetOrbitalPeriod_yr (- 1) 1) (Finite T).
Proof.
  apply (b64_orbital_period_axis_sign 1 1); [lra |].
  exact orbital_in_range_unit.
Defined.

Lemma constant_rule_laplace_any (B : xfloat) (j s : R) (alpha : xfloat) :
  B64.returns (B64.GetLaplaceCoefficient (B64.constant_rule B) j s alpha)
              (B64.xmul (Finite (1 / PI)) B).
Proof.
  unfold B64.returns. rewrite b64_laplace_coefficient_run. reflexivity.
Qed.

Lemma b64_secular_degenerate_coefficient_witness :
  B64.returns (B64.GetSecularTimescale_yr (B64.constant_rule NaN) 1 1 1 4) NaN.
Proof.
  pose proof secular_in_range_example
    as (Horb & Hratio & Hmass & Ht & Hp & Htp & _).
  cbv zeta in Ht, Hp, Htp.
  exact (b64_secular_degenerate_coefficient (B64.constant_rule NaN)
           1 1 1 4 NaN
           ltac:(lra) ltac:(lra) ltac:(lra) ltac:(lra)
           Horb Hratio Hmass Ht Hp Htp
           (constant_rule_laplace_any NaN 1 1.5 _)).
Defined.

Lemma b64_secular_sign_witness :
  exists s : R,
    B64.returns (B64.GetSecularTimescale_yr (B64.constant_rule (Finite 1))
                   1 1 1 4) (Finite s)
    /\ (0 < 1 / PI * 1 -> 0 < s)
    /\ (1 / PI * 1 < 0 -> s < 0).
Proof.
  apply (b64_secular_sign (B64.constant_rule (Finite 1)) 1 1 1 4); try lra.
  - exact secular_in_range_example.
  - apply constant_rule_laplace. exact normal_inv_pi_unit.
  - exact (normal_nonzero _ normal_inv_pi_unit).
Defined.
